(** * PBKDF2WinCTester: a shallow embedding of [PBKDF2.cpp]

    The program reads a hash type, a salt, an iteration count and a
    password from the command line, turns salt and password into byte
    buffers (the "right" way or the "wrong" way) and hands them to the
    Windows CNG primitive [BCryptDeriveKeyPBKDF2].

    Conventions of the embedding.
    - A [TCHAR] is modelled by the integer the source obtains with
      [(int)c]; a text is the list of the characters in front of its
      terminating NUL.  A pointer paired with a size (hexText and
      hexTextSize, byteBuffer and bufferSize) is the list of the
      elements it designates.
    - An allocated block is a list of cells; a cell is [None] until the
      program writes it.  Writes go through [store], which checks the
      index against the block.
    - The C runtime and the Windows API are not part of the repository.
      What the program needs of them is either written out ([_ttoi],
      [_stprintf_s], [_itot_s] as documented for the Microsoft runtime)
      or taken from a [Platform] record (allocation, code page
      conversion, the CNG calls).
    - A run that leaves the language (a write outside a block, the
      invalid parameter handler of the secure runtime functions) ends in
      [Abort].
    - The timer is a number of the platform, and [writeBuffer] appends its
      text to the log of its handle. *)

From Stdlib Require Import ZArith String Ascii Bool List Lia.
From Stdlib Require Import DecimalString DecimalZ.
From stdpp Require Import base list.
Import ListNotations.
Local Open Scope Z_scope.

(** ** Characters, texts and bytes *)

Definition TCHAR := Z.
Definition TOCTET := Z.
Definition text := list TCHAR.

(** [_T "..."]: a string literal as a text. *)
Definition _T (s : string) : text :=
  map (fun a => Z.of_nat (nat_of_ascii a)) (list_ascii_of_string s).

(** ** Runs that do not return *)

Inductive Fault : Type :=
| OutOfBounds        (* a write outside the allocated block *)
| UninitialisedRead  (* a read of a cell that was never written *)
| NullPointer        (* a read through NULL *)
| InvalidParameter.  (* the secure runtime rejected its arguments *)

Inductive outcome (A : Type) : Type :=
| Done (a : A)
| Abort (f : Fault).
Arguments Done {A} a.
Arguments Abort {A} f.

Definition bind {A B : Type} (m : outcome A) (k : A -> outcome B) : outcome B :=
  match m with
  | Done a => k a
  | Abort f => Abort f
  end.

Notation "'do' x <- m ; k" := (bind m (fun x => k))
  (at level 10, x pattern, m at level 100, k at level 200).

(** ** Memory blocks *)

Definition block := list (option TOCTET).
Definition tblock := list (option TCHAR).

(** [malloc n]: [n] cells, none of them written. *)
Definition uninitialised {A : Type} (n : Z) : list (option A) := replicate (Z.to_nat n) None.

(** [p[i] = v] for a block [p]. *)
Definition store {A : Type} (p : list (option A)) (i : Z) (v : A) : outcome (list (option A)) :=
  if (0 <=? i) && (i <? Z.of_nat (length p))
  then Done (<[Z.to_nat i := Some v]> p)
  else Abort OutOfBounds.

(** ** Formatted output of the runtime *)

(** [%d] and [%zu]. *)
Definition decimal (z : Z) : text := _T (NilZero.string_of_int (Z.to_int z)).

Definition hex_lower_digit (d : Z) : TCHAR :=
  nth (Z.to_nat d) (_T "0123456789abcdef") 0.

Fixpoint hex_lower_digits (fuel : nat) (z : Z) (acc : text) : text :=
  match fuel with
  | O => acc
  | S fuel' =>
      let acc' := hex_lower_digit (z mod 16) :: acc in
      if z / 16 =? 0 then acc' else hex_lower_digits fuel' (z / 16) acc'
  end.

(** [%x] of a 32-bit argument. *)
Definition hex_lower (z : Z) : text := hex_lower_digits 8 (z mod 2 ^ 32) [].

(** [_stprintf_s(buffer, sizeOfBuffer, ...)], [msg] being the formatted
    text: the text and its terminator have to fit into [sizeOfBuffer]
    characters; otherwise the runtime calls the invalid parameter handler,
    which the program leaves at its default and which ends the process. *)
Definition _stprintf_s (sizeOfBuffer : Z) (msg : text) : outcome text :=
  if Z.of_nat (length msg) <? sizeOfBuffer then Done msg
  else Abort InvalidParameter.

(** [_tcscpy_s(dest, numberOfElements, src)]. *)
Definition _tcscpy_s (numberOfElements : Z) (src : text) : outcome text :=
  if Z.of_nat (length src) <? numberOfElements then Done src
  else Abort InvalidParameter.

Definition quote : TCHAR := 34.
Definition newline : TCHAR := 10.

(** A value stored into a [TOCTET] keeps its low eight bits. *)
Definition to_TOCTET (v : Z) : TOCTET := v mod 256.

(** ** The runtime's [_ttoi] and [errno] *)

Definition INT_MAX : Z := 2147483647.
Definition INT_MIN : Z := -2147483648.
Definition ERANGE : Z := 34.

Definition is_space (c : TCHAR) : bool := ((9 <=? c) && (c <=? 13)) || (c =? 32).
Definition is_digit (c : TCHAR) : bool := (48 <=? c) && (c <=? 57).

Fixpoint skip_spaces (s : text) : text :=
  match s with
  | c :: r => if is_space c then skip_spaces r else s
  | [] => []
  end.

Fixpoint leading_digits (acc : Z) (s : text) : Z :=
  match s with
  | c :: r => if is_digit c then leading_digits (acc * 10 + (c - 48)) r else acc
  | [] => acc
  end.

(** [_ttoi] ([atoi], [_wtoi]) of the Microsoft runtime: white space, an
    optional sign, then the digits up to the first other character.  A text
    without digits gives 0 and leaves [errno] as it is; a number outside
    the range of [int] gives [INT_MAX] or [INT_MIN] and sets [errno] to
    [ERANGE].  The result is the value and the new [errno].  White space
    and digits are those of ASCII, the ones [atoi] knows; [_wtoi], which
    [_ttoi] is in a build with [_UNICODE], takes the white space and the
    decimal digits of other scripts as well, so that for such a build this
    is [_ttoi] on texts of ASCII characters. *)
Definition _ttoi (s : text) (errno : Z) : Z * Z :=
  let s1 := skip_spaces s in
  let '(negative, s2) :=
    match s1 with
    | 45 :: r => (true, r)
    | 43 :: r => (false, r)
    | _ => (false, s1)
    end in
  let n := leading_digits 0 s2 in
  let v := if negative then - n else n in
  if v >? INT_MAX then (INT_MAX, ERANGE)
  else if v <? INT_MIN then (INT_MIN, ERANGE)
  else (v, errno).

(** ** [getIntegerArg] (lines 158-188) *)

Record IntegerArg : Type := mkIntegerArg {
  ia_result : Z;
  ia_errorBuffer : text;
  ia_errno : Z
}.

Definition msg_not_an_integer (pArgName : text) : text :=
  [quote] ++ pArgName ++ [quote] ++ _T " is not an integer" ++ [newline].

Definition msg_below_minimum (pArgName : text) (minValue : Z) : text :=
  [quote] ++ pArgName ++ [quote] ++ _T " is smaller than minimum value of "
    ++ decimal minValue ++ [newline].

Definition msg_above_maximum (pArgName : text) (maxValue : Z) : text :=
  [quote] ++ pArgName ++ [quote] ++ _T " is larger than maximum value of "
    ++ decimal maxValue ++ [newline].

(** [errno] is the value of the runtime's variable when the function is
    entered; the function never clears it. *)
Definition getIntegerArg (pArgName pArg : text) (minValue maxValue : Z)
    (errorBufferSize : Z) (errno : Z) : outcome IntegerArg :=
  let '(result, errno) := _ttoi pArg errno in
  if negb (errno =? 0) then
    do msg <- _stprintf_s errorBufferSize (msg_not_an_integer pArgName);
    Done (mkIntegerArg 0 msg errno)
  else if result <? minValue then
    do msg <- _stprintf_s errorBufferSize (msg_below_minimum pArgName minValue);
    Done (mkIntegerArg 0 msg errno)
  else if result >? maxValue then
    do msg <- _stprintf_s errorBufferSize (msg_above_maximum pArgName maxValue);
    Done (mkIntegerArg 0 msg errno)
  else Done (mkIntegerArg result [] errno).

(** ** [bytesToHex] (lines 198-227) *)

Definition HEX_DIGITS : text := _T "0123456789ABCDEF".

(** The body of the [for] loop, once per byte; [pActResult] is the offset
    of the write pointer in [pResult]. *)
Fixpoint bytesToHex_loop (byteBuffer : list TOCTET) (pResult : tblock) (pActResult : Z)
    : outcome (tblock * Z) :=
  match byteBuffer with
  | [] => Done (pResult, pActResult)
  | b :: rest =>
      let v := Z.land b 255 in
      do p1 <- store pResult pActResult (nth (Z.to_nat (Z.shiftr v 4)) HEX_DIGITS 0);
      do p2 <- store p1 (pActResult + 1) (nth (Z.to_nat (Z.land v 15)) HEX_DIGITS 0);
      do p3 <- store p2 (pActResult + 2) 32;
      bytesToHex_loop rest p3 (pActResult + 3)
  end.

(** [malloc_ok] says whether [malloc] returned a block; the result is the
    returned pointer, [None] for [NULL]. *)
Definition bytesToHex (malloc_ok : bool) (byteBuffer : list TOCTET) : outcome (option tblock) :=
  let bufferSize := Z.of_nat (length byteBuffer) in
  let resultSize := bufferSize * 3 in
  if malloc_ok then
    do (pResult, pActResult) <- bytesToHex_loop byteBuffer (uninitialised resultSize) 0;
    do pResult <- store pResult (pActResult - 1) 0;
    Done (Some pResult)
  else Done None.

(** The text a block holds for a reader such as [%s]: the characters in
    front of the first NUL.  [None] when the reader meets a cell that was
    never written or runs off the block. *)
Fixpoint c_string (p : tblock) : option text :=
  match p with
  | [] => None
  | None :: _ => None
  | Some c :: r =>
      if c =? 0 then Some []
      else match c_string r with
           | Some s => Some (c :: s)
           | None => None
           end
  end.

(** ** [getHexCharValue] (lines 232-262) *)

Definition getHexCharValue (hexChar : TCHAR) : TOCTET :=
  let workValue := hexChar - 48 in
  if workValue >=? 0 then
    if workValue <=? 9 then to_TOCTET workValue
    else
      let workValue := workValue - (65 - 48 - 10) in
      if workValue >=? 10 then
        if workValue <=? 15 then to_TOCTET workValue
        else
          let workValue := workValue - (97 - 65) in
          if workValue >=? 10 then
            if workValue <=? 15 then to_TOCTET workValue
            else 255
          else 255
      else 255
  else 255.

(** ** [hexStringToByteArray] (lines 267-320) *)

Definition msg_invalid_hex (c : TCHAR) (actPos : Z) (hexText : text) : text :=
  _T "Invalid hex character '" ++ [c] ++ _T "' at position " ++ decimal actPos
    ++ _T " of hex string " ++ [quote] ++ hexText ++ [quote] ++ [newline].

Definition msg_hex_allocation (byteArraySize : Z) : text :=
  _T "Could not allocate " ++ decimal byteArraySize
    ++ _T " bytes for hex conversion byte array" ++ [newline].

(** The [for] loop over the characters that are left, [chars]; [result] is
    the block, [pActByte] the offset of the write pointer in it.  The loop
    ends with the block and the error buffer. *)
Fixpoint hexStringToByteArray_loop (hexText : text) (errorBufferSize : Z)
    (chars : text) (actPos : Z) (isLowNibble : bool) (byteValue : TOCTET)
    (result : block) (pActByte : Z) (errorBuffer : text) : outcome (block * text) :=
  match chars with
  | [] => Done (result, errorBuffer)
  | c :: rest =>
      let actValue := getHexCharValue c in
      if actValue <=? 15 then
        if isLowNibble then
          do result' <- store result pActByte (to_TOCTET (Z.lor byteValue actValue));
          hexStringToByteArray_loop hexText errorBufferSize rest (actPos + 1)
            (negb isLowNibble) byteValue result' (pActByte + 1) errorBuffer
        else
          hexStringToByteArray_loop hexText errorBufferSize rest (actPos + 1)
            (negb isLowNibble) (to_TOCTET (Z.shiftl actValue 4)) result pActByte errorBuffer
      else
        do msg <- _stprintf_s errorBufferSize (msg_invalid_hex c actPos hexText);
        Done (result, msg)
  end.

Record HexBytes : Type := mkHexBytes {
  hb_result : option block;    (* the returned pointer *)
  hb_byteArraySize : Z;        (* *byteArraySize on return *)
  hb_errorBuffer : text
}.

(** [byteArraySize] is what [*byteArraySize] holds on entry. *)
Definition hexStringToByteArray (malloc_ok : bool) (hexText : text)
    (byteArraySize : Z) (errorBufferSize : Z) : outcome HexBytes :=
  let hexTextSize := Z.of_nat (length hexText) in
  let isHexTextSizeOdd := negb (Z.land hexTextSize 1 =? 0) in
  let allocationSize := Z.shiftr hexTextSize 1 in
  let allocationSize := if isHexTextSizeOdd then allocationSize + 1 else allocationSize in
  if malloc_ok then
    do (result, errorBuffer) <-
      hexStringToByteArray_loop hexText errorBufferSize hexText 1 isHexTextSizeOdd 0
        (uninitialised allocationSize) 0 [];
    Done (mkHexBytes (Some result) allocationSize errorBuffer)
  else
    do msg <- _stprintf_s errorBufferSize (msg_hex_allocation byteArraySize);
    Done (mkHexBytes None byteArraySize msg).

(** [safeHexStringToByteArray] (lines 325-330): [hexTextSize] is
    [_tcslen(hexText)], which the list carries. *)
Definition safeHexStringToByteArray (malloc_ok : bool) (hexText : text)
    (byteArraySize : Z) (errorBufferSize : Z) : outcome HexBytes :=
  hexStringToByteArray malloc_ok hexText byteArraySize errorBufferSize.

(** ** The platform *)

(** The places where the program asks for memory. *)
Inductive AllocSite : Type :=
| AllocHexBytes        (* hexStringToByteArray, line 278 *)
| AllocPasswordUTF16   (* getPasswordUTF16Encoding, line 350 *)
| AllocPasswordUTF8    (* getPasswordUTF8Encoding, lines 377 and 399 *)
| AllocDerivedKey      (* calculatePBKDF2, line 451 *)
| AllocSaltText        (* _tmain, lines 656 and 659 *)
| AllocKeyText.        (* _tmain, line 668 *)

Definition NTSTATUS := Z.

(** What the program takes from the build and from Windows.  [UNICODE] is
    the [_UNICODE] switch of the build. *)
Record Platform : Type := mkPlatform {
  UNICODE : bool;
  malloc : AllocSite -> bool;
  (* the content of a local variable that was never assigned *)
  indeterminate : Z;
  (* CP_ACP text to UTF-16 *)
  MultiByteToWideChar : text -> text;
  (* UTF-16 to CP_UTF8 *)
  WideCharToMultiByte : text -> list TOCTET;
  BCryptOpenAlgorithmProvider : text -> NTSTATUS;
  (* BCRYPT_HASH_LENGTH: the status and the length *)
  BCryptGetProperty : text -> NTSTATUS * Z;
  (* algorithm, password, salt, iteration count, key size: the status and
     the content of the key buffer after the call *)
  BCryptDeriveKeyPBKDF2 :
    text -> option block -> option block -> Z -> Z -> NTSTATUS * block;
  (* lround(duration * 1000) of the measured call *)
  duration_ms : Z
}.

Definition sizeof_TCHAR (pf : Platform) : Z := if UNICODE pf then 2 else 1.
Definition sizeof_wchar_t : Z := 2.
Definition sizeof_int : Z := 4.

Definition NT_SUCCESS (status : NTSTATUS) : bool := status >=? 0.

Definition ULONG (v : Z) : Z := v mod 2 ^ 32.
Definition ULONGLONG (v : Z) : Z := v mod 2 ^ 64.

(** The bytes of an object of [n] bytes holding [v], lowest address first
    (Windows runs on little-endian machines only). *)
Fixpoint object_bytes (n : nat) (v : Z) : list TOCTET :=
  match n with
  | O => []
  | S n' => v mod 256 :: object_bytes n' (v / 256)
  end.

(** The bytes behind a [TCHAR] text, as [(TOCTET* )password] shows them. *)
Definition native_bytes (pf : Platform) (s : text) : list TOCTET :=
  flat_map (object_bytes (Z.to_nat (sizeof_TCHAR pf))) s.

(** The bytes of a block that was written completely. *)
Fixpoint read_block (p : block) : outcome (list TOCTET) :=
  match p with
  | [] => Done []
  | None :: _ => Abort UninitialisedRead
  | Some b :: r => do bs <- read_block r; Done (b :: bs)
  end.

(** ** The password encodings (lines 336-409) *)

Record Encoding : Type := mkEncoding {
  enc_bytes : option block;    (* the pointer the function stored *)
  enc_size : Z;                (* the size it stored *)
  enc_errorBuffer : text
}.

Definition msg_utf16_allocation (bufferSize : Z) : text :=
  _T "Could not allocate " ++ decimal bufferSize ++ _T " bytes for passwordInUTF16"
    ++ [newline].

Definition msg_utf8_allocation (size : Z) : text :=
  _T "Could not allocate " ++ decimal size ++ _T " bytes for passwordInUTF8"
    ++ [newline].

(** The result is the UTF-16 text, [None] for [NULL], and the error
    buffer. *)
Definition getPasswordUTF16Encoding (pf : Platform) (password : text)
    (errorBufferSize : Z) : outcome (option text * text) :=
  let wide := MultiByteToWideChar pf password in
  let bufferSize := Z.of_nat (length wide) * sizeof_wchar_t in
  if malloc pf AllocPasswordUTF16 then Done (Some wide, [])
  else
    do msg <- _stprintf_s errorBufferSize (msg_utf16_allocation bufferSize);
    Done (None, msg).

(** [passwordInUTF8] and [passwordInUTF8Size] are what the caller's
    variables hold on entry. *)
Definition getPasswordUTF8Encoding (pf : Platform) (password : text)
    (passwordInUTF8 : option block) (passwordInUTF8Size : Z)
    (errorBufferSize : Z) : outcome Encoding :=
  let convert (wide : text) : outcome Encoding :=
    let bytes := WideCharToMultiByte pf wide in
    let size := Z.of_nat (length bytes) in
    if malloc pf AllocPasswordUTF8 then Done (mkEncoding (Some (map Some bytes)) size [])
    else
      do msg <- _stprintf_s errorBufferSize (msg_utf8_allocation size);
      Done (mkEncoding None size msg) in
  if UNICODE pf then convert password
  else
    do (passwordInUnicode, errorBuffer) <- getPasswordUTF16Encoding pf password errorBufferSize;
    match passwordInUnicode with
    | Some wide => convert wide
    | None => Done (mkEncoding passwordInUTF8 passwordInUTF8Size errorBuffer)
    end.

(** ** [calculatePBKDF2] (lines 414-478) *)

Record DerivedKey : Type := mkDerivedKey {
  dk_key : option block;       (* *ppDerivedKey on return *)
  dk_size : Z;                 (* *pDerivedKeySize on return *)
  dk_errorBuffer : text
}.

Definition msg_api_error (status : NTSTATUS) (api : text) : text :=
  _T "Error 0x" ++ hex_lower status ++ _T " returned by " ++ api ++ [newline].

Definition msg_key_allocation (size : Z) : text :=
  _T "Could not allocate " ++ decimal size ++ _T " bytes for hash value" ++ [newline].

(** [ppDerivedKey] and [derivedKeySize] are what the caller's variables
    hold on entry. [BCryptGetProperty] is given [sizeof(int)] = 4 bytes of
    [*pDerivedKeySize] (lines 443-448): it writes the hash length into the
    four low bytes of the [SIZE_T], and what the variable held above them
    (in a 64-bit build, where a [SIZE_T] has 8 bytes) stays. *)
Definition calculatePBKDF2 (pf : Platform) (ppDerivedKey : option block)
    (derivedKeySize : Z) (pHashType : text) (pSalt : option block) (saltSize : Z)
    (iterationCount : Z) (password : option block) (passwordSize : Z)
    (errorBufferSize : Z) : outcome DerivedKey :=
  let status := BCryptOpenAlgorithmProvider pf pHashType in
  if NT_SUCCESS status then
    let '(status, hashLength) := BCryptGetProperty pf pHashType in
    if NT_SUCCESS status then
      let derivedKeySize := derivedKeySize - ULONG derivedKeySize + ULONG hashLength in
      if malloc pf AllocDerivedKey then
        let '(status, key) :=
          BCryptDeriveKeyPBKDF2 pf pHashType
            (take (Z.to_nat (ULONG passwordSize)) <$> password)
            (take (Z.to_nat (ULONG saltSize)) <$> pSalt)
            (ULONGLONG iterationCount) (ULONG derivedKeySize) in
        if negb (NT_SUCCESS status) then
          do msg <- _stprintf_s errorBufferSize
                      (msg_api_error status (_T "BCryptDeriveKeyPBKDF2"));
          Done (mkDerivedKey (Some key) derivedKeySize msg)
        else Done (mkDerivedKey (Some key) derivedKeySize [])
      else
        do msg <- _stprintf_s errorBufferSize (msg_key_allocation derivedKeySize);
        Done (mkDerivedKey None derivedKeySize msg)
    else
      do msg <- _stprintf_s errorBufferSize (msg_api_error status (_T "BCryptGetProperty"));
      Done (mkDerivedKey ppDerivedKey derivedKeySize msg)
  else
    do msg <- _stprintf_s errorBufferSize
                (msg_api_error status (_T "BCryptOpenAlgorithmProvider"));
    Done (mkDerivedKey ppDerivedKey derivedKeySize msg).

(** ** [_tmain] (lines 522-732) *)

Definition MIN_HASH_TYPE : Z := 1.
Definition MAX_HASH_TYPE : Z := 5.
Definition MIN_SALT : Z := 0.
Definition MAX_SALT : Z := INT_MAX.
Definition MIN_ITERATION_COUNT : Z := 1.
Definition MAX_ITERATION_COUNT : Z := 5000000.

(** The algorithm identifiers of [bcrypt.h]. *)
Definition BCRYPT_SHA1_ALGORITHM : text := _T "SHA1".
Definition BCRYPT_SHA256_ALGORITHM : text := _T "SHA256".
Definition BCRYPT_SHA384_ALGORITHM : text := _T "SHA384".
Definition BCRYPT_SHA512_ALGORITHM : text := _T "SHA512".

Definition HASH_ALGORITHM : list text :=
  [ BCRYPT_SHA1_ALGORITHM; BCRYPT_SHA256_ALGORITHM; BCRYPT_SHA384_ALGORITHM;
    BCRYPT_SHA512_ALGORITHM; BCRYPT_SHA512_ALGORITHM ].

(** [HASH_ALGORITHM[hashType]]. *)
Definition selected_algorithm (hashType : Z) : text :=
  nth (Z.to_nat hashType) HASH_ALGORITHM [].

Definition IS_ERROR_MSG_SET (errorBuffer : text) : bool :=
  match errorBuffer with
  | [] => false
  | _ :: _ => true
  end.

(** The arguments of the call of [calculatePBKDF2] in line 647. *)
Record DerivationInput : Type := mkDerivationInput {
  di_pHashType : text;
  di_pSalt : option block;
  di_saltSize : Z;
  di_iterationCount : Z;
  di_password : option block;
  di_passwordSize : Z
}.

(** What a run that returns leaves behind: the exit code, the texts handed
    to [writeBuffer] for the two handles (the conversion to the code page
    of the console is left out), the derivation it asked for (if it came
    that far) and the blocks it freed under the label [Exit]. *)
Record Run : Type := mkRun {
  returnValue : Z;
  stdout : list text;
  stderr : list text;
  derivation : option DerivationInput;
  freed : list block
}.

(** The label [Exit] (lines 721-731). *)
Definition Exit (returnValue : Z) (out err : list text) (d : option DerivationInput)
    (releasePassword releaseSalt releaseDerivedKey : option block) : outcome Run :=
  Done (mkRun returnValue out err d
          (omap id [releasePassword; releaseSalt; releaseDerivedKey])).

Definition usage : list text :=
  [ _T "Not enough arguments" ++ [newline];
    _T "Usage: pbkdf2 <hashType> <salt> <iterationCount> <password> [doItRight]" ++ [newline];
    _T "       hashType: 1=SHA-1, 2=SHA-256, 3=SHA384, 5=SHA512" ++ [newline];
    _T "       doItRight: If present the salt is interpreted as a byte array and" ++ [newline];
    _T "                  the password is converted to UTF-8 before hashing" ++ [newline];
    _T "                  Otherwise the salt is interpreted as an integer and" ++ [newline];
    _T "                  the password is used in the ANSI or UTF-16 encoding" ++ [newline] ].

Fixpoint copy_all (numberOfElements : Z) (lines : list text) : outcome (list text) :=
  match lines with
  | [] => Done []
  | l :: r =>
      do l' <- _tcscpy_s numberOfElements l;
      do r' <- copy_all numberOfElements r;
      Done (l' :: r')
  end.

Definition read_pointer (p : option block) (size : Z) : outcome (list TOCTET) :=
  match p with
  | Some b => read_block (take (Z.to_nat size) b)
  | None => Abort NullPointer
  end.

(** [%s] of a text block, ["(null)"] for [NULL]. *)
Definition print_string (p : option tblock) : outcome text :=
  match p with
  | None => Done (_T "(null)")
  | Some b =>
      match c_string b with
      | Some s => Done s
      | None => Abort UninitialisedRead
      end
  end.

Definition msg_result (alg saltText : text) (iterationCount : Z) (password pbkdf2AsText : text)
    : text :=
  _T "HashType: " ++ alg ++ _T ", Salt: " ++ saltText ++ _T ", IterationCount: "
    ++ decimal iterationCount ++ _T ", Password: '" ++ password ++ _T "', PBKDF2: "
    ++ pbkdf2AsText ++ [newline].

Definition msg_duration (ms : Z) : text :=
  _T "Duration: " ++ decimal ms ++ _T " ms" ++ [newline].

(** Step 2 of [_tmain] (lines 557-579): the salt. *)
Record Salt : Type := mkSalt {
  salt_array : option block;       (* saltArray *)
  salt_arraySize : Z;              (* saltArraySize *)
  salt_value : Z;                  (* salt, where it is assigned *)
  salt_release : option block;     (* releaseSalt *)
  salt_errorBuffer : text;
  salt_errno : Z
}.

Definition get_salt (pf : Platform) (doItRight : bool) (ARGV_SALT : text)
    (errorBufferSize errno : Z) : outcome Salt :=
  if doItRight then
    do hb <- safeHexStringToByteArray (malloc pf AllocHexBytes) ARGV_SALT
               (indeterminate pf) errorBufferSize;
    Done (mkSalt (hb_result hb) (hb_byteArraySize hb) (indeterminate pf) (hb_result hb)
            (hb_errorBuffer hb) errno)
  else
    do a <- getIntegerArg (_T "salt") ARGV_SALT MIN_SALT MAX_SALT errorBufferSize errno;
    let salt := ia_result a in
    Done (mkSalt (Some (map Some (object_bytes (Z.to_nat sizeof_int) salt))) sizeof_int
            salt None (ia_errorBuffer a) (ia_errno a)).

(** The last part of [_tmain] (lines 640-693): the derivation and the
    output. *)
Definition derive_and_print (pf : Platform) (doItRight : bool) (hashType : Z) (s : Salt)
    (iterationCount : Z) (password : text) (passwordBytes : option block)
    (passwordBytesSize : Z) (releasePassword : option block) (errorBufferSize : Z)
    : outcome Run :=
  let alg := selected_algorithm hashType in
  let d := mkDerivationInput alg (salt_array s) (salt_arraySize s) iterationCount
             passwordBytes passwordBytesSize in
  do dk <- calculatePBKDF2 pf None 0 alg (salt_array s) (salt_arraySize s) iterationCount
             passwordBytes passwordBytesSize errorBufferSize;
  let releaseDerivedKey := dk_key dk in
  if negb (IS_ERROR_MSG_SET (dk_errorBuffer dk)) then
    do saltText <-
      (if doItRight then
         do bytes <- (if malloc pf AllocSaltText
                      then read_pointer (salt_array s) (salt_arraySize s) else Done []);
         do p <- bytesToHex (malloc pf AllocSaltText) bytes;
         match p with
         | Some b => do t <- print_string (Some b); Done (Some t)
         | None => Done None
         end
       else
         (* _itot_s of the int behind saltArray, which is salt *)
         if malloc pf AllocSaltText then Done (Some (decimal (salt_value s)))
         else Done None);
    match saltText with
    | Some saltText =>
        do bytes <- (if malloc pf AllocKeyText
                     then read_pointer (dk_key dk) (dk_size dk) else Done []);
        do p <- bytesToHex (malloc pf AllocKeyText) bytes;
        do pbkdf2AsText <- print_string p;
        do line1 <- _stprintf_s errorBufferSize
                      (msg_result alg saltText iterationCount password pbkdf2AsText);
        do line2 <- _stprintf_s errorBufferSize (msg_duration (duration_ms pf));
        Exit 0 [line1; line2] [] (Some d) releasePassword (salt_release s) releaseDerivedKey
    | None =>
        do msg <- _tcscpy_s ((errorBufferSize + 1) * sizeof_TCHAR pf)
                    (_T "Could not allocate salt text array" ++ [newline]);
        Exit 3 [] [msg] (Some d) releasePassword (salt_release s) releaseDerivedKey
    end
  else
    Exit 2 [] [dk_errorBuffer dk] (Some d) releasePassword (salt_release s) releaseDerivedKey.

(** [argv] holds the program name and the arguments; [argc] is its length.
    [errno] is 0 when the program starts. *)
Definition _tmain (pf : Platform) (argv : list text) : outcome Run :=
  let argc := Z.of_nat (length argv) in
  let errorBufferSize := 499 in
  let ARGV_HASH_TYPE := nth 1 argv [] in
  let ARGV_SALT := nth 2 argv [] in
  let ARGV_ITERATION_COUNT := nth 3 argv [] in
  let ARGV_PASSWORD := nth 4 argv [] in
  if argc >=? 5 then
    let doItRight := argc >=? 6 in
    (* 1. Get the hash type *)
    do a1 <- getIntegerArg (_T "hashType") ARGV_HASH_TYPE MIN_HASH_TYPE MAX_HASH_TYPE
               errorBufferSize 0;
    let hashType := ia_result a1 - 1 in
    if IS_ERROR_MSG_SET (ia_errorBuffer a1) then
      Exit 2 [] [ia_errorBuffer a1] None None None None
    else
      (* 2. Get the salt *)
      do s <- get_salt pf doItRight ARGV_SALT errorBufferSize (ia_errno a1);
      if IS_ERROR_MSG_SET (salt_errorBuffer s) then
        Exit 2 [] [salt_errorBuffer s] None None (salt_release s) None
      else
        (* 3. Get the iteration count *)
        do a3 <- getIntegerArg (_T "iterationCount") ARGV_ITERATION_COUNT
                   MIN_ITERATION_COUNT MAX_ITERATION_COUNT errorBufferSize (salt_errno s);
        let iterationCount := ia_result a3 in
        if IS_ERROR_MSG_SET (ia_errorBuffer a3) then
          Exit 2 [] [ia_errorBuffer a3] None None (salt_release s) None
        else
          (* 4. Get the password *)
          let password := ARGV_PASSWORD in
          let passwordSize := Z.of_nat (length password) in
          if doItRight then
            do e <- getPasswordUTF8Encoding pf password None 0 errorBufferSize;
            if negb (IS_ERROR_MSG_SET (enc_errorBuffer e)) then
              derive_and_print pf doItRight hashType s iterationCount password
                (enc_bytes e) (enc_size e) (enc_bytes e) errorBufferSize
            else
              Exit 3 [] [enc_errorBuffer e] None None (salt_release s) None
          else
            derive_and_print pf doItRight hashType s iterationCount password
              (Some (map Some (native_bytes pf password)))
              (passwordSize * sizeof_TCHAR pf) None errorBufferSize
  else
    do lines <- copy_all ((errorBufferSize + 1) * sizeof_TCHAR pf) usage;
    Exit 1 [] lines None None None None.

(** ** The words of the specification *)

(** The characters [0-9A-Fa-f]. *)
Definition is_hex_digit (c : TCHAR) : bool :=
  ((48 <=? c) && (c <=? 57)) || ((65 <=? c) && (c <=? 70)) || ((97 <=? c) && (c <=? 102)).

(** The value of a hexadecimal digit. *)
Definition hex_value (c : TCHAR) : Z :=
  if c <=? 57 then c - 48 else if c <=? 70 then c - 55 else c - 87.

(** Pairs of digits, the first one being the high half of the byte. *)
Fixpoint decode_pairs (digits : list Z) : list TOCTET :=
  match digits with
  | hi :: lo :: r => (16 * hi + lo) :: decode_pairs r
  | _ => []
  end.

(** Digit values to bytes; with [leading] the first digit is the low half
    of a byte of its own. *)
Definition decode_from (leading : bool) (digits : list Z) : list TOCTET :=
  if leading then
    match digits with
    | d :: r => d :: decode_pairs r
    | [] => []
    end
  else decode_pairs digits.

(** The decoding of the specification: digit pairs; in a text of odd
    length the first digit is the low half of a leading byte of its own. *)
Definition hex_decode (s : text) : list TOCTET :=
  decode_from (Nat.odd (length s)) (map hex_value s).

Definition all_hex (s : text) : Prop := Forall (fun c => is_hex_digit c = true) s.

(** The two upper-case digits of a byte. *)
Definition hex_pair (b : TOCTET) : text :=
  [nth (Z.to_nat (b / 16)) HEX_DIGITS 0; nth (Z.to_nat (b mod 16)) HEX_DIGITS 0].

(** The encoding of the specification: two digits a byte, one space between
    two bytes, nothing after the last. *)
Fixpoint hex_text (bytes : list TOCTET) : text :=
  match bytes with
  | [] => []
  | b :: r =>
      match r with
      | [] => hex_pair b
      | _ :: _ => hex_pair b ++ [32] ++ hex_text r
      end
  end.

Definition remove_separators (s : text) : text :=
  List.filter (fun c => negb (c =? 32)) s.

Definition is_byte (b : Z) : Prop := 0 <= b < 256.

(** The number a sequence of bytes stands for, lowest byte first. *)
Fixpoint little_endian (bytes : list TOCTET) : Z :=
  match bytes with
  | [] => 0
  | b :: r => b + 256 * little_endian r
  end.

(** [part] occurs in [msg]. *)
Definition names (part msg : text) : Prop :=
  exists before after, msg = before ++ part ++ after.

Fixpoint starts_with (part msg : text) : bool :=
  match part, msg with
  | [], _ => true
  | p :: part', m :: msg' => (p =? m) && starts_with part' msg'
  | _ :: _, [] => false
  end.

Fixpoint occurs_in (part msg : text) : bool :=
  starts_with part msg ||
  match msg with
  | [] => false
  | _ :: msg' => occurs_in part msg'
  end.

(** The algorithms of the specification, with their digest sizes. *)
Inductive HashAlgorithmId : Type := SHA_1 | SHA_256 | SHA_384 | SHA_512.

Definition algorithm_of_index (hashType : Z) : option HashAlgorithmId :=
  match hashType with
  | 1 => Some SHA_1
  | 2 => Some SHA_256
  | 3 => Some SHA_384
  | 4 => Some SHA_512
  | 5 => Some SHA_512
  | _ => None
  end.

Definition identifier (a : HashAlgorithmId) : text :=
  match a with
  | SHA_1 => BCRYPT_SHA1_ALGORITHM
  | SHA_256 => BCRYPT_SHA256_ALGORITHM
  | SHA_384 => BCRYPT_SHA384_ALGORITHM
  | SHA_512 => BCRYPT_SHA512_ALGORITHM
  end.

(** The UTF-8 bytes the platform makes of a password of the build's
    character type. *)
Definition utf8_of (pf : Platform) (password : text) : list TOCTET :=
  if UNICODE pf then WideCharToMultiByte pf password
  else WideCharToMultiByte pf (MultiByteToWideChar pf password).

(** Platforms to run examples on: a Unicode build on which the conversions
    copy the character codes, the hash is four bytes long and the key is
    1 2 3 4; [allocation] and the three statuses are the platform's
    answers. *)
Definition example_platform (allocation : AllocSite -> bool)
    (open_status property_status derive_status : NTSTATUS) : Platform :=
  mkPlatform true allocation 0 (fun t => t) (fun t => t)
    (fun _ => open_status) (fun _ => (property_status, 4))
    (fun _ _ _ _ _ => (derive_status, map Some [1; 2; 3; 4])) 7.

Definition every_allocation : AllocSite -> bool := fun _ => true.

Definition all_but (site : AllocSite) : AllocSite -> bool :=
  fun s =>
    match site, s with
    | AllocHexBytes, AllocHexBytes => false
    | AllocPasswordUTF16, AllocPasswordUTF16 => false
    | AllocPasswordUTF8, AllocPasswordUTF8 => false
    | AllocDerivedKey, AllocDerivedKey => false
    | AllocSaltText, AllocSaltText => false
    | AllocKeyText, AllocKeyText => false
    | _, _ => true
    end.

Definition STATUS_NOT_FOUND : NTSTATUS := -1073741275.   (* 0xC0000225 *)

(** ** Definitions of the proofs *)

(** The bytes the decoding loop writes for the digit values [digits] when
    it is entered with [isLowNibble] and [byteValue]. *)
Fixpoint pack (isLowNibble : bool) (byteValue : Z) (digits : list Z) : list TOCTET :=
  match digits with
  | [] => []
  | d :: r =>
      if isLowNibble then to_TOCTET (Z.lor byteValue d) :: pack false byteValue r
      else pack true (to_TOCTET (Z.shiftl d 4)) r
  end.

(** The two characters the encoding loop writes for a byte. *)
Definition code_pair (b : TOCTET) : text :=
  let v := Z.land b 255 in
  [nth (Z.to_nat (Z.shiftr v 4)) HEX_DIGITS 0; nth (Z.to_nat (Z.land v 15)) HEX_DIGITS 0].

Definition nibbles (ds : list Z) : Prop := Forall (fun d => 0 <= d <= 15) ds.

Definition below (n : nat) : list Z := map Z.of_nat (seq 0 n).

(** The round trip as the specification has it: the decoder takes the text
    of the encoder as it is. *)
Definition round_trip (B : list TOCTET) : Prop :=
  exists (p : tblock) (t : text) (r : HexBytes),
    bytesToHex true B = Done (Some p) /\ c_string p = Some t /\
    hexStringToByteArray true t 0 499 = Done r /\
    hb_result r = Some (map Some B) /\ hb_errorBuffer r = [].

(** A run that returns with the exit code 2, nothing on the standard
    output and one text on the standard error. *)
Definition exits_with_2 (pf : Platform) (argv : list text) : Prop :=
  exists r : Run,
    _tmain pf argv = Done r /\ returnValue r = 2 /\ stdout r = [] /\
    length (stderr r) = 1%nat.

(** Arguments that pass every check, without a fifth one. *)
Definition plain_arguments : list text :=
  [_T "pbkdf2"; _T "1"; _T "0"; _T "1"; _T "pw"].

(** ** Words for the further properties *)

(** The number the digits [d] make behind the number [acc]. *)
Fixpoint uint_value (d : Decimal.uint) (acc : Z) : Z :=
  match d with
  | Decimal.Nil => acc
  | Decimal.D0 l => uint_value l (10 * acc)
  | Decimal.D1 l => uint_value l (1 + 10 * acc)
  | Decimal.D2 l => uint_value l (2 + 10 * acc)
  | Decimal.D3 l => uint_value l (3 + 10 * acc)
  | Decimal.D4 l => uint_value l (4 + 10 * acc)
  | Decimal.D5 l => uint_value l (5 + 10 * acc)
  | Decimal.D6 l => uint_value l (6 + 10 * acc)
  | Decimal.D7 l => uint_value l (7 + 10 * acc)
  | Decimal.D8 l => uint_value l (8 + 10 * acc)
  | Decimal.D9 l => uint_value l (9 + 10 * acc)
  end.

(** What [_ttoi] makes of the number [v]: outside [int] the nearest bound,
    with [errno] set to [ERANGE]. *)
Definition clamp (v errno : Z) : Z * Z :=
  if v >? INT_MAX then (INT_MAX, ERANGE)
  else if v <? INT_MIN then (INT_MIN, ERANGE)
  else (v, errno).

(** A numeral ends where [tail] begins: [tail] does not start with a digit. *)
Definition ends_number (tail : text) : Prop :=
  match tail with
  | [] => True
  | c :: _ => is_digit c = false
  end.

(** The upper-case form of a letter a-z, every other character as it is. *)
Definition upper_case (c : TCHAR) : TCHAR :=
  if (97 <=? c) && (c <=? 122) then c - 32 else c.

(** Every step of [calculatePBKDF2] succeeded. *)
Definition derivation_succeeds (pf : Platform) (pHashType : text)
    (pSalt : option block) (saltSize iterationCount : Z)
    (password : option block) (passwordSize : Z) : bool :=
  NT_SUCCESS (BCryptOpenAlgorithmProvider pf pHashType)
  && NT_SUCCESS (fst (BCryptGetProperty pf pHashType))
  && malloc pf AllocDerivedKey
  && NT_SUCCESS
       (fst (BCryptDeriveKeyPBKDF2 pf pHashType
               (take (Z.to_nat (ULONG passwordSize)) <$> password)
               (take (Z.to_nat (ULONG saltSize)) <$> pSalt)
               (ULONGLONG iterationCount)
               (ULONG (snd (BCryptGetProperty pf pHashType))))).

(** How the salt got into the first line of the output. *)
Definition salt_text_of (pf : Platform) (doItRight : bool) (s : Salt) (saltText : text)
    : Prop :=
  if doItRight then
    exists (bytes : list TOCTET) (p : tblock),
      read_pointer (salt_array s) (salt_arraySize s) = Done bytes /\
      bytesToHex true bytes = Done (Some p) /\ c_string p = Some saltText
  else saltText = decimal (salt_value s).

(** How the key got there. *)
Definition key_text_of (pf : Platform) (dk : DerivedKey) (keyText : text) : Prop :=
  if malloc pf AllocKeyText then
    exists (key : list TOCTET) (p : tblock),
      read_pointer (dk_key dk) (dk_size dk) = Done key /\
      bytesToHex true key = Done (Some p) /\ c_string p = Some keyText
  else keyText = _T "(null)".

(** What step 2 of [_tmain] leaves in [s] when it reports no error. *)
Definition salt_of (doItRight : bool) (saltArg : text) (s : Salt) : Prop :=
  if doItRight then
    all_hex saltArg /\
    salt_array s = Some (map Some (hex_decode saltArg)) /\
    salt_arraySize s = Z.of_nat (length (hex_decode saltArg)) /\
    salt_release s = salt_array s
  else
    exists a : IntegerArg,
      getIntegerArg (_T "salt") saltArg MIN_SALT MAX_SALT 499 0 = Done a /\
      ia_errorBuffer a = [] /\ salt_value s = ia_result a /\ salt_release s = None.

(** What step 4 of [_tmain] hands to the derivation. *)
Definition password_of (pf : Platform) (doItRight : bool) (password : text)
    (passwordBytes : option block) (passwordBytesSize : Z)
    (releasePassword : option block) : Prop :=
  if doItRight then
    passwordBytes = Some (map Some (utf8_of pf password)) /\
    passwordBytesSize = Z.of_nat (length (utf8_of pf password)) /\
    releasePassword = passwordBytes
  else
    passwordBytes = Some (map Some (native_bytes pf password)) /\
    passwordBytesSize = Z.of_nat (length password) * sizeof_TCHAR pf /\
    releasePassword = None.

(** The password allocation that failed. *)
Definition password_allocation_failed (pf : Platform) : Prop :=
  malloc pf AllocPasswordUTF8 = false \/
  (UNICODE pf = false /\ malloc pf AllocPasswordUTF16 = false).

(** Runs on the example platform: one with all five arguments, the same
    one when the text of the key cannot be allocated, and one with four
    arguments when the text of the salt cannot be allocated. *)
Definition successful_correct_run : outcome Run :=
  _tmain (example_platform every_allocation 0 0 0)
    [_T "pbkdf2"; _T "2"; _T "0a1B"; _T "1000"; _T "secret"; _T "x"].

Definition run_without_key_text : outcome Run :=
  _tmain (example_platform (all_but AllocKeyText) 0 0 0)
    [_T "pbkdf2"; _T "2"; _T "0a1B"; _T "1000"; _T "secret"; _T "x"].

Definition run_without_salt_text : outcome Run :=
  _tmain (example_platform (all_but AllocSaltText) 0 0 0)
    [_T "pbkdf2"; _T "2"; _T "12"; _T "1000"; _T "secret"].

(** The computation does not end by reading through a [NULL] pointer. *)
Definition never_null {A : Type} (m : outcome A) : Prop := m <> Abort NullPointer.

(** * Proofs *)

(** ** Tactics and small facts *)

Ltac case_bind H :=
  match type of H with
  | bind ?m _ = Done _ =>
      let E := fresh "E" in
      destruct m eqn:E; cbn [bind] in H; [| discriminate H]
  end.

Lemma _stprintf_s_done (n : Z) (msg out : text) : _stprintf_s n msg = Done out -> out = msg.
Proof. unfold _stprintf_s. destruct (_ <? _); congruence. Qed.

Lemma names_intro (before part after msg : text) :
  msg = before ++ part ++ after -> names part msg.
Proof. intros ->. exists before, after. reflexivity. Qed.

Lemma names_occurs_in (part msg : text) : names part msg -> occurs_in part msg = true.
Proof.
  intros (before & after & ->).
  induction before as [| b before IH].
  - cbn [app]. assert (H : starts_with part (part ++ after) = true).
    { induction part as [| p part IHp]; [reflexivity |].
      cbn [app starts_with]. rewrite Z.eqb_refl. exact IHp. }
    destruct (part ++ after); cbn [occurs_in]; rewrite H; reflexivity.
  - cbn [app occurs_in]. rewrite IH. apply orb_true_r.
Qed.

Lemma below_check (f : Z -> bool) (n : nat) :
  forallb f (below n) = true -> forall z, 0 <= z < Z.of_nat n -> f z = true.
Proof.
  intros H z Hz. rewrite forallb_forall in H. apply H.
  unfold below. apply in_map_iff. exists (Z.to_nat z). split; [lia |].
  apply in_seq. lia.
Qed.

Lemma parity_cases (n : nat) :
  exists m : nat,
    (Nat.odd n = true /\ n = 2 * m + 1)%nat \/ (Nat.odd n = false /\ n = 2 * m)%nat.
Proof.
  destruct (Nat.odd n) eqn:E.
  - apply Nat.odd_spec in E. destruct E as [m ->]. exists m. left. split; reflexivity.
  - rewrite <- Nat.negb_even in E. apply negb_false_iff in E.
    apply Nat.even_spec in E. destruct E as [m ->]. exists m. right. split; reflexivity.
Qed.

Lemma half_up (n : nat) :
  ((n + (if Nat.odd n then 1 else 0)) / 2 = (n + 1) / 2)%nat.
Proof.
  destruct (parity_cases n) as [m [[E ->] | [E ->]]]; rewrite E.
  - reflexivity.
  - replace (2 * m + 0)%nat with (m * 2)%nat by lia.
    replace (2 * m + 1)%nat with (1 + m * 2)%nat by lia.
    rewrite Nat.div_mul, Nat.div_add by lia. reflexivity.
Qed.

Lemma written_before_failure (g n : nat) :
  (g < n)%nat ->
  ((g + (if Nat.odd n then 1 else 0)) / 2 < (n + 1) / 2)%nat.
Proof.
  intros Hg. rewrite <- (half_up n).
  destruct (parity_cases n) as [m [[E ->] | [E ->]]]; rewrite E.
  - replace (2 * m + 1 + 1)%nat with ((m + 1) * 2)%nat by lia.
    rewrite Nat.div_mul by lia.
    apply Nat.Div0.div_lt_upper_bound. lia.
  - replace (2 * m + 0)%nat with (m * 2)%nat by lia.
    rewrite Nat.div_mul by lia.
    apply Nat.Div0.div_lt_upper_bound. lia.
Qed.

Lemma size_is_odd (n : nat) :
  negb (Z.land (Z.of_nat n) 1 =? 0) = Nat.odd n.
Proof.
  change 1 with (Z.ones 1). rewrite Z.land_ones by lia. change (2 ^ 1) with 2.
  rewrite <- Nat.negb_even. f_equal.
  destruct (Nat.even n) eqn:E.
  - apply Nat.even_spec in E. destruct E as [m ->]. apply Z.eqb_eq.
    rewrite Nat2Z.inj_mul. rewrite Z.mul_comm. apply Z.mod_mul. lia.
  - apply Z.eqb_neq. intros H.
    assert (Nat.even n = true); [| congruence].
    apply Nat.even_spec. exists (Z.to_nat (Z.of_nat n / 2)).
    pose proof (Z.div_mod (Z.of_nat n) 2 ltac:(lia)). lia.
Qed.

Lemma allocationSize_eq (n : nat) :
  Z.to_nat (let a := Z.shiftr (Z.of_nat n) 1 in if Nat.odd n then a + 1 else a)
  = ((n + (if Nat.odd n then 1 else 0)) / 2)%nat.
Proof.
  cbv zeta. rewrite Z.shiftr_div_pow2 by lia. change (2 ^ 1) with 2.
  destruct (Nat.odd n) eqn:E.
  - apply Nat.odd_spec in E. destruct E as [m ->].
    replace (Z.of_nat (2 * m + 1) / 2) with (Z.of_nat m)
      by (apply Z.div_unique with (r := 1); lia).
    replace (2 * m + 1 + 1)%nat with ((m + 1) * 2)%nat by lia.
    rewrite Nat.div_mul by lia. lia.
  - rewrite <- Nat.negb_even in E. apply negb_false_iff in E.
    apply Nat.even_spec in E. destruct E as [m ->].
    replace (Z.of_nat (2 * m) / 2) with (Z.of_nat m)
      by (apply Z.div_unique with (r := 0); lia).
    replace (2 * m + 0)%nat with (m * 2)%nat by lia.
    rewrite Nat.div_mul by lia. lia.
Qed.

Lemma argc_at_least_5 (n : nat) : (Z.of_nat (S (S (S (S (S n))))) >=? 5) = true.
Proof. rewrite Z.geb_leb. apply Z.leb_le. lia. Qed.

Lemma argc_at_least_6 (n : nat) : (Z.of_nat (S (S (S (S (S (S n)))))) >=? 6) = true.
Proof. rewrite Z.geb_leb. apply Z.leb_le. lia. Qed.

(** ** Writing into a block *)

Lemma store_next {A : Type} (pre : list A) (k : nat) (v : A) :
  store (map Some pre ++ replicate (S k) None) (Z.of_nat (length pre)) v
  = Done (map Some (pre ++ [v]) ++ replicate k None).
Proof.
  unfold store.
  rewrite length_app, length_map, length_replicate.
  replace (0 <=? Z.of_nat (length pre)) with true by (symmetry; apply Z.leb_le; lia).
  replace (Z.of_nat (length pre) <? Z.of_nat (length pre + S k)) with true
    by (symmetry; apply Z.ltb_lt; lia).
  simpl. rewrite Nat2Z.id.
  rewrite insert_app_r_alt by (rewrite length_map; lia).
  rewrite length_map, Nat.sub_diag. simpl.
  rewrite map_app. simpl. rewrite <- app_assoc. reflexivity.
Qed.

Lemma store_last {A : Type} (pre : list A) (x v : A) :
  store (map Some (pre ++ [x])) (Z.of_nat (length pre)) v = Done (map Some (pre ++ [v])).
Proof.
  unfold store.
  rewrite length_map, length_app. simpl.
  replace (0 <=? Z.of_nat (length pre)) with true by (symmetry; apply Z.leb_le; lia).
  replace (Z.of_nat (length pre) <? Z.of_nat (length pre + 1)) with true
    by (symmetry; apply Z.ltb_lt; lia).
  simpl. rewrite Nat2Z.id. rewrite !map_app.
  rewrite insert_app_r_alt by (rewrite length_map; lia).
  rewrite length_map, Nat.sub_diag. reflexivity.
Qed.

(** ** Hexadecimal digits *)

Lemma getHexCharValue_hex (c : TCHAR) :
  is_hex_digit c = true -> getHexCharValue c = hex_value c /\ 0 <= hex_value c <= 15.
Proof.
  unfold is_hex_digit, getHexCharValue, hex_value, to_TOCTET. intros H.
  repeat match goal with
         | |- context [?a <=? ?b] => destruct (Z.leb_spec a b)
         | |- context [?a >=? ?b] => destruct (Z.geb_spec a b)
         | H : context [?a <=? ?b] |- _ => destruct (Z.leb_spec a b)
         end; simpl in H; try discriminate; try lia;
  (split; [ rewrite Z.mod_small by lia; lia | lia ]).
Qed.

Lemma getHexCharValue_other (c : TCHAR) :
  is_hex_digit c = false -> getHexCharValue c = 255.
Proof.
  unfold is_hex_digit, getHexCharValue, to_TOCTET. intros H.
  repeat match goal with
         | |- context [?a <=? ?b] => destruct (Z.leb_spec a b)
         | |- context [?a >=? ?b] => destruct (Z.geb_spec a b)
         | H : context [?a <=? ?b] |- _ => destruct (Z.leb_spec a b)
         end; simpl in H; try discriminate; try lia; reflexivity.
Qed.

Lemma HEX_DIGITS_digit (d : Z) :
  0 <= d <= 15 ->
  let c := nth (Z.to_nat d) HEX_DIGITS 0 in
  is_hex_digit c = true /\ hex_value c = d /\ c <> 0 /\ c <> 32.
Proof.
  intros Hd.
  pose (f := fun d => let c := nth (Z.to_nat d) HEX_DIGITS 0 in
                      is_hex_digit c && (hex_value c =? d) && negb (c =? 0) && negb (c =? 32)).
  assert (Hf : f d = true) by (apply (below_check f 16); [vm_compute; reflexivity | lia]).
  unfold f in Hf. cbv zeta in *.
  repeat (apply andb_prop in Hf; destruct Hf as [Hf ?]).
  repeat split; try assumption.
  - apply Z.eqb_eq. assumption.
  - apply Z.eqb_neq. apply negb_true_iff. assumption.
  - apply Z.eqb_neq. apply negb_true_iff. assumption.
Qed.

Lemma byte_nibbles (b : TOCTET) : is_byte b -> 0 <= b / 16 <= 15 /\ 0 <= b mod 16 <= 15.
Proof.
  unfold is_byte. intros Hb.
  pose proof (Z.mod_pos_bound b 16 ltac:(lia)).
  pose proof (Z.div_mod b 16 ltac:(lia)). lia.
Qed.

Lemma lor_nibbles (hi lo : Z) :
  0 <= hi <= 15 -> 0 <= lo <= 15 ->
  to_TOCTET (Z.lor (to_TOCTET (Z.shiftl hi 4)) lo) = 16 * hi + lo.
Proof.
  intros Hhi Hlo.
  pose (f := fun hi => forallb (fun lo =>
               to_TOCTET (Z.lor (to_TOCTET (Z.shiftl hi 4)) lo) =? 16 * hi + lo) (below 16)).
  assert (Hf : f hi = true) by (apply (below_check f 16); [vm_compute; reflexivity | lia]).
  unfold f in Hf. apply Z.eqb_eq.
  apply (below_check _ 16 Hf). lia.
Qed.

Lemma all_hex_nibbles (s : text) : all_hex s -> nibbles (map hex_value s).
Proof.
  intros H. induction H as [| c s Hc Hs IH]; constructor.
  - apply getHexCharValue_hex. assumption.
  - assumption.
Qed.

Lemma first_invalid (s : text) :
  all_hex s \/
  exists good c rest, s = good ++ c :: rest /\ all_hex good /\ is_hex_digit c = false.
Proof.
  induction s as [| c s IH].
  - left. constructor.
  - destruct (is_hex_digit c) eqn:E.
    + destruct IH as [IH | (good & c' & rest & -> & Hg & Hc)].
      * left. constructor; assumption.
      * right. exists (c :: good), c', rest. repeat split; try assumption.
        constructor; assumption.
    + right. exists [], c, s. repeat split; try assumption. constructor.
Qed.

(** ** The decoder *)

Lemma pack_length (ds : list Z) :
  forall (il : bool) (bv : Z),
    length (pack il bv ds) = ((length ds + (if il then 1 else 0)) / 2)%nat.
Proof.
  induction ds as [| d ds IH]; intros il bv.
  - destruct il; reflexivity.
  - destruct il; cbn [pack length]; rewrite IH.
    + replace (S (length ds) + 1)%nat with (1 * 2 + (length ds + 0))%nat by lia.
      rewrite Nat.div_add_l by lia. lia.
    + f_equal. lia.
Qed.

Lemma pack_pairs_aux (n : nat) :
  forall (ds : list Z) (bv : Z),
    (length ds <= n)%nat -> nibbles ds -> pack false bv ds = decode_pairs ds.
Proof.
  induction n as [| n IH]; intros ds bv Hn Hds.
  - destruct ds; [reflexivity | simpl in Hn; lia].
  - destruct ds as [| hi [| lo r]]; [reflexivity | reflexivity |].
    inversion Hds as [| ? ? Hhi Hds']; subst.
    inversion Hds' as [| ? ? Hlo Hr]; subst.
    cbn [pack decode_pairs]. rewrite lor_nibbles by assumption.
    f_equal. apply IH; [simpl in Hn; lia | assumption].
Qed.

Lemma pack_pairs (ds : list Z) (bv : Z) :
  nibbles ds -> pack false bv ds = decode_pairs ds.
Proof. apply (pack_pairs_aux (length ds)). lia. Qed.

Lemma pack_leading (d : Z) (ds : list Z) :
  nibbles (d :: ds) -> pack true 0 (d :: ds) = d :: decode_pairs ds.
Proof.
  intros H. inversion H as [| ? ? Hd Hds]; subst.
  cbn [pack]. rewrite Z.lor_0_l. unfold to_TOCTET at 1.
  rewrite Z.mod_small by lia. f_equal. apply pack_pairs. assumption.
Qed.

Lemma pack_decode_from (leading : bool) (ds : list Z) :
  nibbles ds -> pack leading 0 ds = decode_from leading ds.
Proof.
  intros H. unfold decode_from. destruct leading.
  - destruct ds as [| d ds]; [reflexivity |]. apply pack_leading. assumption.
  - apply pack_pairs. assumption.
Qed.

Lemma pack_decode (s : text) :
  all_hex s -> pack (Nat.odd (length s)) 0 (map hex_value s) = hex_decode s.
Proof.
  intros H. unfold hex_decode.
  destruct (Nat.odd (length s)) eqn:E.
  - destruct s as [| c s]; [reflexivity |].
    cbn [map]. apply pack_leading. apply (all_hex_nibbles (c :: s)). assumption.
  - apply pack_pairs. apply all_hex_nibbles. assumption.
Qed.

Section DecodingLoop.

Variable hexText : text.
Variable errorBufferSize : Z.

(** The loop on a text that is hexadecimal up to [tail], which is empty or
    begins with a character that is not: the bytes of [pack] are written
    behind the ones the block holds, and the loop ends in [tail] with the
    message for its first character. *)
Lemma loop_spec (good tail : text) :
  all_hex good ->
  (tail = [] \/ exists c rest, tail = c :: rest /\ is_hex_digit c = false) ->
  forall (actPos : Z) (isLowNibble : bool) (byteValue : Z) (pre : list TOCTET) (k : nat)
         (errorBuffer : text),
    (length (pack isLowNibble byteValue (map hex_value good)) <= k)%nat ->
    hexStringToByteArray_loop hexText errorBufferSize (good ++ tail) actPos isLowNibble
      byteValue (map Some pre ++ replicate k None) (Z.of_nat (length pre)) errorBuffer
    = let written := pack isLowNibble byteValue (map hex_value good) in
      let result := map Some (pre ++ written) ++ replicate (k - length written) None in
      match tail with
      | [] => Done (result, errorBuffer)
      | c :: _ =>
          do msg <- _stprintf_s errorBufferSize
                      (msg_invalid_hex c (actPos + Z.of_nat (length good)) hexText);
          Done (result, msg)
      end.
Proof.
  intros Hgood Htail.
  induction Hgood as [| c good Hc Hgood IH]; intros actPos isLow bv pre k err Hk.
  - simpl in *. rewrite app_nil_r, Nat.sub_0_r, Z.add_0_r.
    destruct Htail as [-> | (c & rest & -> & Hc)]; [reflexivity |].
    simpl. rewrite (getHexCharValue_other c Hc). reflexivity.
  - destruct (getHexCharValue_hex c Hc) as [Hv Hr].
    cbn [app hexStringToByteArray_loop map pack] in *.
    rewrite Hv. replace (hex_value c <=? 15) with true by (symmetry; apply Z.leb_le; lia).
    destruct isLow; cbn [negb] in *.
    + cbn [length] in Hk. destruct k as [| k]; [lia |].
      rewrite store_next. cbn [bind].
      replace (Z.of_nat (length pre) + 1) with (Z.of_nat (length (pre ++ [to_TOCTET (Z.lor bv (hex_value c))])))
        by (rewrite length_app; simpl; lia).
      rewrite IH by lia.
      cbn [length]. rewrite <- !app_assoc. cbn [app].
      replace (actPos + 1 + Z.of_nat (length good)) with (actPos + Z.of_nat (S (length good))) by lia.
      reflexivity.
    + rewrite IH by lia.
      replace (actPos + 1 + Z.of_nat (length good)) with (actPos + Z.of_nat (S (length good))) by lia.
      reflexivity.
Qed.

End DecodingLoop.

Lemma hexStringToByteArray_valid (hexText : text) (byteArraySize errorBufferSize : Z) :
  all_hex hexText ->
  hexStringToByteArray true hexText byteArraySize errorBufferSize
  = Done (mkHexBytes (Some (map Some (hex_decode hexText)))
            (Z.of_nat (length (hex_decode hexText))) []).
Proof.
  intros H. unfold hexStringToByteArray. cbv zeta. rewrite size_is_odd.
  set (alloc := if Nat.odd (length hexText) then _ else _).
  assert (Ha : Z.to_nat alloc = length (hex_decode hexText)).
  { subst alloc. rewrite <- pack_decode by assumption.
    rewrite pack_length, length_map. apply allocationSize_eq. }
  assert (Hz : alloc = Z.of_nat (length (hex_decode hexText))).
  { rewrite <- Ha. symmetry. apply Z2Nat.id. subst alloc.
    rewrite Z.shiftr_div_pow2 by lia.
    pose proof (Z.div_pos (Z.of_nat (length hexText)) (2 ^ 1) ltac:(lia) ltac:(lia)).
    destruct (Nat.odd _); lia. }
  pose proof (loop_spec hexText errorBufferSize hexText [] H (or_introl eq_refl)
                1 (Nat.odd (length hexText)) 0 [] (Z.to_nat alloc) []) as L.
  rewrite app_nil_r in L. cbn [map app length] in L.
  unfold uninitialised. change (Z.of_nat 0) with 0 in L. rewrite L.
  - rewrite pack_decode by assumption. rewrite Ha, Nat.sub_diag.
    cbn [replicate bind]. rewrite app_nil_r. rewrite Hz. reflexivity.
  - rewrite pack_decode by assumption. lia.
Qed.

Lemma hexStringToByteArray_invalid (good : text) (c : TCHAR) (rest : text)
    (byteArraySize errorBufferSize : Z) :
  all_hex good -> is_hex_digit c = false ->
  let hexText := good ++ c :: rest in
  let written := decode_from (Nat.odd (length hexText)) (map hex_value good) in
  let size := ((length hexText + 1) / 2)%nat in
  (length written < size)%nat /\
  hexStringToByteArray true hexText byteArraySize errorBufferSize
  = do msg <- _stprintf_s errorBufferSize
                (msg_invalid_hex c (Z.of_nat (length good) + 1) hexText);
    Done (mkHexBytes (Some (map Some written ++ replicate (size - length written) None))
            (Z.of_nat size) msg).
Proof.
  intros Hgood Hc hexText written size.
  assert (Hw : length written = ((length good + (if Nat.odd (length hexText) then 1 else 0)) / 2)%nat).
  { subst written. rewrite <- pack_decode_from by (apply all_hex_nibbles; assumption).
    rewrite pack_length, length_map. reflexivity. }
  assert (Hlt : (length written < size)%nat).
  { rewrite Hw. subst size. apply written_before_failure.
    subst hexText. rewrite length_app. simpl. lia. }
  split; [exact Hlt |].
  unfold hexStringToByteArray. cbv zeta. rewrite size_is_odd.
  fold hexText.
  set (alloc := if Nat.odd (length hexText) then _ else _).
  assert (Ha : Z.to_nat alloc = size).
  { subst alloc size. rewrite <- half_up. apply allocationSize_eq. }
  assert (Hz : alloc = Z.of_nat size).
  { rewrite <- Ha. symmetry. apply Z2Nat.id. subst alloc.
    rewrite Z.shiftr_div_pow2 by lia.
    pose proof (Z.div_pos (Z.of_nat (length hexText)) (2 ^ 1) ltac:(lia) ltac:(lia)).
    destruct (Nat.odd _); lia. }
  assert (Htail : c :: rest = [] \/ exists c' rest', c :: rest = c' :: rest' /\ is_hex_digit c' = false).
  { right. exists c, rest. split; [reflexivity | assumption]. }
  pose proof (loop_spec hexText errorBufferSize good (c :: rest) Hgood Htail
                1 (Nat.odd (length hexText)) 0 [] (Z.to_nat alloc) []) as L.
  cbn [map app length] in L. change (Z.of_nat 0) with 0 in L.
  unfold uninitialised. fold hexText in L. rewrite L.
  - cbv zeta. rewrite pack_decode_from by (apply all_hex_nibbles; assumption).
    fold written. rewrite Ha, Hz.
    replace (1 + Z.of_nat (length good)) with (Z.of_nat (length good) + 1) by lia.
    clear L.
    destruct (_stprintf_s errorBufferSize _); reflexivity.
  - rewrite pack_decode_from by (apply all_hex_nibbles; assumption).
    fold written. lia.
Qed.

Lemma hexStringToByteArray_accepts (malloc_ok : bool) (hexText : text)
    (byteArraySize errorBufferSize : Z) (r : HexBytes) :
  hexStringToByteArray malloc_ok hexText byteArraySize errorBufferSize = Done r ->
  IS_ERROR_MSG_SET (hb_errorBuffer r) = false ->
  all_hex hexText /\
  r = mkHexBytes (Some (map Some (hex_decode hexText)))
        (Z.of_nat (length (hex_decode hexText))) [].
Proof.
  intros H Hno. destruct malloc_ok.
  - destruct (first_invalid hexText) as [Hall | (good & c & rest & -> & Hg & Hc)].
    + split; [exact Hall |].
      rewrite hexStringToByteArray_valid in H by exact Hall. congruence.
    + destruct (hexStringToByteArray_invalid good c rest byteArraySize errorBufferSize Hg Hc)
        as [_ H'].
      cbv zeta in H'. rewrite H' in H. case_bind H. injection H as <-.
      apply _stprintf_s_done in E. subst. discriminate Hno.
  - unfold hexStringToByteArray in H. cbv zeta in H. case_bind H. injection H as <-.
    apply _stprintf_s_done in E. subst. discriminate Hno.
Qed.

(** ** The encoder *)

Lemma bytesToHex_loop_spec (byteBuffer : list TOCTET) :
  forall (pre : text) (k : nat),
    bytesToHex_loop byteBuffer
      (map Some pre ++ replicate (3 * length byteBuffer + k) None) (Z.of_nat (length pre))
    = Done (map Some (pre ++ flat_map (fun b => code_pair b ++ [32]) byteBuffer)
              ++ replicate k None,
            Z.of_nat (length pre) + 3 * Z.of_nat (length byteBuffer)).
Proof.
  induction byteBuffer as [| b bs IH]; intros pre k.
  - simpl. rewrite app_nil_r, Z.add_0_r. reflexivity.
  - cbn [bytesToHex_loop length flat_map].
    replace (3 * S (length bs) + k)%nat with (S (S (S (3 * length bs + k)))) by lia.
    rewrite store_next. cbn [bind].
    match goal with |- context [map Some (pre ++ [?x])] => set (c1 := x) end.
    replace (Z.of_nat (length pre) + 1) with (Z.of_nat (length (pre ++ [c1])))
      by (rewrite length_app; simpl; lia).
    rewrite store_next. cbn [bind].
    match goal with |- context [map Some ((pre ++ [c1]) ++ [?x])] => set (c2 := x) end.
    replace (Z.of_nat (length pre) + 2) with (Z.of_nat (length ((pre ++ [c1]) ++ [c2])))
      by (rewrite !length_app; simpl; lia).
    rewrite store_next. cbn [bind].
    replace (Z.of_nat (length pre) + 3)
      with (Z.of_nat (length (((pre ++ [c1]) ++ [c2]) ++ [32])))
      by (rewrite !length_app; simpl; lia).
    rewrite IH. rewrite !length_app. cbn [length].
    unfold code_pair. fold c1 c2. rewrite <- !app_assoc. cbn [app].
    do 2 f_equal. lia.
Qed.

Lemma code_pair_byte (b : TOCTET) : is_byte b -> code_pair b = hex_pair b.
Proof.
  intros Hb. unfold code_pair, hex_pair. cbv zeta.
  change 255 with (Z.ones 8). rewrite Z.land_ones by lia.
  rewrite (Z.mod_small b) by (unfold is_byte in Hb; change (2 ^ 8) with 256; lia).
  rewrite Z.shiftr_div_pow2 by lia. change 15 with (Z.ones 4).
  rewrite Z.land_ones by lia. reflexivity.
Qed.

Lemma flat_map_code_pair (bytes : list TOCTET) :
  Forall is_byte bytes ->
  flat_map (fun b => code_pair b ++ [32]) bytes = flat_map (fun b => hex_pair b ++ [32]) bytes.
Proof.
  intros H. induction H as [| b bs Hb Hbs IH]; [reflexivity |].
  cbn [flat_map]. rewrite IH, code_pair_byte by assumption. reflexivity.
Qed.

Lemma hex_text_separated (b : TOCTET) (bs : list TOCTET) :
  flat_map (fun b => hex_pair b ++ [32]) (b :: bs) = hex_text (b :: bs) ++ [32].
Proof.
  revert b. induction bs as [| b' bs IH]; intros b.
  - reflexivity.
  - change (flat_map (fun b => hex_pair b ++ [32]) (b :: b' :: bs))
      with ((hex_pair b ++ [32]) ++ flat_map (fun b => hex_pair b ++ [32]) (b' :: bs)).
    rewrite IH.
    change (hex_text (b :: b' :: bs)) with (hex_pair b ++ [32] ++ hex_text (b' :: bs)).
    rewrite <- !app_assoc. reflexivity.
Qed.

Lemma hex_text_length (b : TOCTET) (bs : list TOCTET) :
  Z.of_nat (length (hex_text (b :: bs))) = 3 * Z.of_nat (length (b :: bs)) - 1.
Proof.
  revert b. induction bs as [| b' bs IH]; intros b.
  - reflexivity.
  - change (hex_text (b :: b' :: bs)) with (hex_pair b ++ [32] ++ hex_text (b' :: bs)).
    rewrite !length_app, !Nat2Z.inj_add, IH. cbn [length hex_pair]. lia.
Qed.

Lemma bytesToHex_spec (b : TOCTET) (bs : list TOCTET) :
  Forall is_byte (b :: bs) ->
  bytesToHex true (b :: bs) = Done (Some (map Some (hex_text (b :: bs) ++ [0]))).
Proof.
  intros H. unfold bytesToHex. cbv zeta.
  pose proof (bytesToHex_loop_spec (b :: bs) [] 0) as L.
  cbn [map app length] in L. change (Z.of_nat 0) with 0 in L.
  unfold uninitialised.
  replace (Z.to_nat (Z.of_nat (length (b :: bs)) * 3)) with (3 * length (b :: bs) + 0)%nat by lia.
  cbn [length] in *. rewrite L. cbn [bind].
  rewrite app_nil_r. rewrite flat_map_code_pair by assumption.
  rewrite hex_text_separated.
  replace (0 + 3 * Z.of_nat (S (length bs)) - 1) with (Z.of_nat (length (hex_text (b :: bs))))
    by (rewrite hex_text_length; cbn [length]; lia).
  rewrite store_last. reflexivity.
Qed.

Lemma c_string_terminated (t : text) :
  Forall (fun c => c <> 0) t -> c_string (map Some (t ++ [0])) = Some t.
Proof.
  intros H. induction H as [| c t Hc Ht IH]; [reflexivity |].
  cbn [app map c_string]. rewrite IH.
  destruct (Z.eqb_spec c 0); [contradiction | reflexivity].
Qed.

Lemma hex_text_nonzero (bytes : list TOCTET) :
  Forall is_byte bytes -> Forall (fun c => c <> 0) (hex_text bytes).
Proof.
  intros H. induction H as [| b bs Hb Hbs IH]; [constructor |].
  destruct (byte_nibbles b Hb) as [Hhi Hlo].
  destruct (HEX_DIGITS_digit _ Hhi) as (_ & _ & Hh0 & _).
  destruct (HEX_DIGITS_digit _ Hlo) as (_ & _ & Hl0 & _).
  destruct bs as [| b' bs].
  - cbn [hex_text hex_pair]. repeat (constructor; try assumption).
  - change (hex_text (b :: b' :: bs)) with (hex_pair b ++ [32] ++ hex_text (b' :: bs)).
    cbn [hex_pair app]. repeat (constructor; try assumption). lia.
Qed.

Lemma remove_separators_hex_text (bytes : list TOCTET) :
  Forall is_byte bytes -> remove_separators (hex_text bytes) = flat_map hex_pair bytes.
Proof.
  intros H. induction H as [| b bs Hb Hbs IH]; [reflexivity |].
  destruct (byte_nibbles b Hb) as [Hhi Hlo].
  destruct (HEX_DIGITS_digit _ Hhi) as (_ & _ & _ & Hh).
  destruct (HEX_DIGITS_digit _ Hlo) as (_ & _ & _ & Hl).
  assert (Hp : remove_separators (hex_pair b) = hex_pair b).
  { unfold remove_separators, hex_pair. cbn [List.filter].
    apply Z.eqb_neq in Hh, Hl. rewrite Hh, Hl. reflexivity. }
  destruct bs as [| b' bs].
  - cbn [hex_text flat_map]. rewrite app_nil_r. exact Hp.
  - change (hex_text (b :: b' :: bs)) with (hex_pair b ++ [32] ++ hex_text (b' :: bs)).
    unfold remove_separators in *. rewrite !List.filter_app.
    change (flat_map hex_pair (b :: b' :: bs))
      with (hex_pair b ++ [] ++ flat_map hex_pair (b' :: bs)).
    f_equal; [exact Hp | f_equal; exact IH].
Qed.

Lemma flat_map_hex_pair_all_hex (bytes : list TOCTET) :
  Forall is_byte bytes -> all_hex (flat_map hex_pair bytes).
Proof.
  intros H. induction H as [| b bs Hb Hbs IH]; [constructor |].
  destruct (byte_nibbles b Hb) as [Hhi Hlo].
  destruct (HEX_DIGITS_digit _ Hhi) as (Hh & _).
  destruct (HEX_DIGITS_digit _ Hlo) as (Hl & _).
  cbn [flat_map hex_pair app]. constructor; [assumption |]. constructor; assumption.
Qed.

Lemma hex_decode_flat_map_hex_pair (bytes : list TOCTET) :
  Forall is_byte bytes -> hex_decode (flat_map hex_pair bytes) = bytes.
Proof.
  intros H. unfold hex_decode.
  assert (Hodd : Nat.odd (length (flat_map hex_pair bytes)) = false).
  { clear H. induction bytes as [| b bs IH]; [reflexivity |].
    cbn [flat_map hex_pair app length]. rewrite Nat.odd_succ_succ. exact IH. }
  rewrite Hodd. unfold decode_from. clear Hodd.
  induction H as [| b bs Hb Hbs IH]; [reflexivity |].
  destruct (byte_nibbles b Hb) as [Hhi Hlo].
  destruct (HEX_DIGITS_digit _ Hhi) as (_ & Hh & _).
  destruct (HEX_DIGITS_digit _ Hlo) as (_ & Hl & _).
  cbn [flat_map hex_pair app map decode_pairs]. rewrite Hh, Hl, IH.
  f_equal. pose proof (Z.div_mod b 16 ltac:(lia)). lia.
Qed.

(** ** The arguments and the run *)

Lemma _ttoi_errno (s : text) (v e : Z) : _ttoi s 0 = (v, e) -> e = 0 \/ (e = ERANGE).
Proof.
  unfold _ttoi. cbv zeta.
  destruct (match skip_spaces s with
            | 45 :: r => (true, r)
            | 43 :: r => (false, r)
            | _ => (false, skip_spaces s)
            end) as [negative s2].
  destruct (_ >? _); [intros [= <- <-]; right; reflexivity |].
  destruct (_ <? _); [intros [= <- <-]; right; reflexivity |].
  intros [= <- <-]. left. reflexivity.
Qed.

Lemma getIntegerArg_accepts (pArgName pArg : text) (minValue maxValue errorBufferSize : Z)
    (a : IntegerArg) :
  getIntegerArg pArgName pArg minValue maxValue errorBufferSize 0 = Done a ->
  IS_ERROR_MSG_SET (ia_errorBuffer a) = false ->
  ia_errno a = 0 /\ minValue <= ia_result a <= maxValue.
Proof.
  unfold getIntegerArg. destruct (_ttoi pArg 0) as [v e] eqn:Et.
  destruct (_ttoi_errno _ _ _ Et) as [-> | ->].
  - cbn [Z.eqb negb].
    destruct (Z.ltb_spec v minValue) as [Hlo | Hlo].
    { intros H. case_bind H. injection H as <-. apply _stprintf_s_done in E. subst. discriminate. }
    destruct (Z.gtb_spec v maxValue) as [Hhi | Hhi].
    { intros H. case_bind H. injection H as <-. apply _stprintf_s_done in E. subst. discriminate. }
    intros [= <-] _. cbn. lia.
  - change (negb (ERANGE =? 0)) with true. cbv iota.
    intros H. case_bind H. injection H as <-. apply _stprintf_s_done in E. subst. discriminate.
Qed.

Lemma little_endian_object_bytes (n : nat) :
  forall v : Z, little_endian (object_bytes n v) = v mod 256 ^ Z.of_nat n.
Proof.
  induction n as [| n IH]; intros v.
  - simpl. rewrite Z.mod_1_r. reflexivity.
  - cbn [object_bytes little_endian]. rewrite IH.
    rewrite Nat2Z.inj_succ, Z.pow_succ_r by lia.
    rewrite Z.rem_mul_r by lia. reflexivity.
Qed.

Lemma object_bytes_are_bytes (n : nat) :
  forall v : Z, Forall is_byte (object_bytes n v) /\ length (object_bytes n v) = n.
Proof.
  induction n as [| n IH]; intros v.
  - split; [constructor | reflexivity].
  - destruct (IH (v / 256)) as [Hb Hl]. cbn [object_bytes length]. split.
    + constructor; [| exact Hb]. unfold is_byte. apply Z.mod_pos_bound. lia.
    + rewrite Hl. reflexivity.
Qed.

Lemma getPasswordUTF8Encoding_accepts (pf : Platform) (password : text)
    (errorBufferSize : Z) (e : Encoding) :
  getPasswordUTF8Encoding pf password None 0 errorBufferSize = Done e ->
  IS_ERROR_MSG_SET (enc_errorBuffer e) = false ->
  enc_bytes e = Some (map Some (utf8_of pf password)) /\
  enc_size e = Z.of_nat (length (utf8_of pf password)).
Proof.
  unfold getPasswordUTF8Encoding, utf8_of, getPasswordUTF16Encoding.
  destruct (UNICODE pf).
  - destruct (malloc pf AllocPasswordUTF8).
    + intros [= <-] _. split; reflexivity.
    + intros H. case_bind H. injection H as <-. apply _stprintf_s_done in E. subst.
      discriminate.
  - destruct (malloc pf AllocPasswordUTF16); cbn [bind].
    + destruct (malloc pf AllocPasswordUTF8).
      * intros [= <-] _. split; reflexivity.
      * intros H. case_bind H. injection H as <-. apply _stprintf_s_done in E. subst.
        discriminate.
    + intros H.
      destruct (_stprintf_s errorBufferSize _) eqn:E in H; cbn [bind] in H;
        [| discriminate H].
      injection H as <-. apply _stprintf_s_done in E. subst. discriminate.
Qed.

Lemma derive_and_print_derivation (pf : Platform) (doItRight : bool) (hashType : Z)
    (s : Salt) (iterationCount : Z) (password : text) (passwordBytes : option block)
    (passwordBytesSize : Z) (releasePassword : option block) (errorBufferSize : Z) (r : Run) :
  derive_and_print pf doItRight hashType s iterationCount password passwordBytes
    passwordBytesSize releasePassword errorBufferSize = Done r ->
  derivation r = Some (mkDerivationInput (selected_algorithm hashType) (salt_array s)
                         (salt_arraySize s) iterationCount passwordBytes passwordBytesSize).
Proof.
  unfold derive_and_print, Exit. cbv zeta. intros H.
  case_bind H.
  destruct (negb (IS_ERROR_MSG_SET (dk_errorBuffer a))).
  - case_bind H. destruct a0 as [saltText |].
    + repeat case_bind H. injection H as <-. reflexivity.
    + case_bind H. injection H as <-. reflexivity.
  - injection H as <-. reflexivity.
Qed.

Lemma _tmain_reaches_derivation (pf : Platform) (argv : list text) (r : Run)
    (d : DerivationInput) :
  _tmain pf argv = Done r -> derivation r = Some d ->
  exists (doItRight : bool) (hashType : Z) (s : Salt) (iterationCount : Z)
         (passwordBytes : option block) (passwordBytesSize : Z)
         (releasePassword : option block),
    derive_and_print pf doItRight hashType s iterationCount (nth 4 argv [])
      passwordBytes passwordBytesSize releasePassword 499 = Done r.
Proof.
  intros Hrun Hd. unfold _tmain in Hrun. cbv zeta in Hrun.
  destruct (Z.of_nat (length argv) >=? 5).
  2:{ case_bind Hrun. unfold Exit in Hrun. injection Hrun as <-. discriminate Hd. }
  case_bind Hrun.
  destruct (IS_ERROR_MSG_SET (ia_errorBuffer a)).
  { unfold Exit in Hrun. injection Hrun as <-. discriminate Hd. }
  case_bind Hrun.
  destruct (IS_ERROR_MSG_SET (salt_errorBuffer a0)).
  { unfold Exit in Hrun. injection Hrun as <-. discriminate Hd. }
  case_bind Hrun.
  destruct (IS_ERROR_MSG_SET (ia_errorBuffer a1)).
  { unfold Exit in Hrun. injection Hrun as <-. discriminate Hd. }
  destruct (Z.of_nat (length argv) >=? 6).
  - case_bind Hrun.
    destruct (negb (IS_ERROR_MSG_SET (enc_errorBuffer a2))).
    + do 7 eexists. exact Hrun.
    + unfold Exit in Hrun. injection Hrun as <-. discriminate Hd.
  - do 7 eexists. exact Hrun.
Qed.

Lemma derive_and_print_failure (pf : Platform) (doItRight : bool) (hashType : Z)
    (s : Salt) (iterationCount : Z) (password : text) (passwordBytes : option block)
    (passwordBytesSize : Z) (releasePassword : option block) (errorBufferSize : Z)
    (r : Run) (dk : DerivedKey) :
  derive_and_print pf doItRight hashType s iterationCount password passwordBytes
    passwordBytesSize releasePassword errorBufferSize = Done r ->
  calculatePBKDF2 pf None 0 (selected_algorithm hashType) (salt_array s) (salt_arraySize s)
    iterationCount passwordBytes passwordBytesSize errorBufferSize = Done dk ->
  IS_ERROR_MSG_SET (dk_errorBuffer dk) = true ->
  returnValue r = 2 /\ stdout r = [] /\ stderr r = [dk_errorBuffer dk].
Proof.
  unfold derive_and_print, Exit. cbv zeta. intros H Hdk Herr.
  rewrite Hdk in H. cbn [bind] in H. rewrite Herr in H. cbn [negb] in H.
  injection H as <-. repeat split.
Qed.

(** ** The claims about the run and its arguments *)

(** C1: a failure of the derivation step gives the exit code 2, not 3.
    Whenever a run comes to the derivation and [calculatePBKDF2] leaves a
    message, be it for one of the three CNG calls or for the allocation of
    the key buffer, the run writes that message to the standard error and
    returns 2. *)
Theorem derivation_failure_exit_code (pf : Platform) (argv : list text) (r : Run)
    (d : DerivationInput) (dk : DerivedKey) :
  _tmain pf argv = Done r -> derivation r = Some d ->
  calculatePBKDF2 pf None 0 (di_pHashType d) (di_pSalt d) (di_saltSize d)
    (di_iterationCount d) (di_password d) (di_passwordSize d) 499 = Done dk ->
  IS_ERROR_MSG_SET (dk_errorBuffer dk) = true ->
  returnValue r = 2 /\ stdout r = [] /\ stderr r = [dk_errorBuffer dk].
Proof.
  intros Hrun Hd Hdk Herr.
  destruct (_tmain_reaches_derivation pf argv r d Hrun Hd)
    as (doItRight & hashType & s & iterationCount & pb & ps & rel & H).
  pose proof (derive_and_print_derivation _ _ _ _ _ _ _ _ _ _ _ H) as Hd'.
  rewrite Hd in Hd'. injection Hd' as ->.
  cbn [di_pHashType di_pSalt di_saltSize di_iterationCount di_password di_passwordSize] in Hdk.
  exact (derive_and_print_failure _ _ _ _ _ _ _ _ _ _ _ _ H Hdk Herr).
Qed.

Lemma derivation_failure_exit_code_example :
  exits_with_2 (example_platform every_allocation STATUS_NOT_FOUND 0 0) plain_arguments /\
  exits_with_2 (example_platform every_allocation 0 STATUS_NOT_FOUND 0) plain_arguments /\
  exits_with_2 (example_platform every_allocation 0 0 STATUS_NOT_FOUND) plain_arguments /\
  exits_with_2 (example_platform (all_but AllocDerivedKey) 0 0 0) plain_arguments.
Proof.
  assert (H : forall pf r d dk,
            _tmain pf plain_arguments = Done r -> derivation r = Some d ->
            calculatePBKDF2 pf None 0 (di_pHashType d) (di_pSalt d) (di_saltSize d)
              (di_iterationCount d) (di_password d) (di_passwordSize d) 499 = Done dk ->
            IS_ERROR_MSG_SET (dk_errorBuffer dk) = true ->
            exits_with_2 pf plain_arguments).
  { intros pf r d dk Hr Hd Hdk Herr.
    destruct (derivation_failure_exit_code pf plain_arguments r d dk Hr Hd Hdk Herr)
      as (H2 & Ho & He).
    exists r. split; [exact Hr |]. split; [exact H2 |]. split; [exact Ho |].
    rewrite He. reflexivity. }
  split; [| split; [| split]];
    (eapply H;
     [ vm_compute; reflexivity | reflexivity | vm_compute; reflexivity | reflexivity ]).
Defined.

(** The same on examples, with the messages; the allocation of the salt
    text gives 3, a run without a failure 0. *)
Lemma exit_codes_of_the_examples :
  let argv := [_T "pbkdf2"; _T "1"; _T "0"; _T "1"; _T "pw"] in
  let exit_code := fun pf => match _tmain pf argv with
                             | Done r => Some (returnValue r, stderr r)
                             | Abort _ => None
                             end in
  exit_code (example_platform every_allocation STATUS_NOT_FOUND 0 0)
  = Some (2, [_T "Error 0xc0000225 returned by BCryptOpenAlgorithmProvider" ++ [newline]])
  /\ exit_code (example_platform every_allocation 0 STATUS_NOT_FOUND 0)
     = Some (2, [_T "Error 0xc0000225 returned by BCryptGetProperty" ++ [newline]])
  /\ exit_code (example_platform every_allocation 0 0 STATUS_NOT_FOUND)
     = Some (2, [_T "Error 0xc0000225 returned by BCryptDeriveKeyPBKDF2" ++ [newline]])
  /\ exit_code (example_platform (all_but AllocDerivedKey) 0 0 0)
     = Some (2, [_T "Could not allocate 4 bytes for hash value" ++ [newline]])
  /\ exit_code (example_platform (all_but AllocSaltText) 0 0 0)
     = Some (3, [_T "Could not allocate salt text array" ++ [newline]])
  /\ exit_code (example_platform every_allocation 0 0 0) = Some (0, []).
Proof.
  cbv zeta. repeat split; vm_compute; reflexivity.
Qed.

(** C3: the text "abc" is not reported as "not an integer".  [_ttoi]
    gives 0 for it and leaves [errno] alone, so the salt "abc" is accepted
    as 0, and as hash type or iteration count it is reported as smaller than
    the minimum.  A run with the salt "abc" derives a key from the salt
    0 0 0 0 and exits with 0. *)
Theorem non_numeric_text_passes_as_zero :
  getIntegerArg (_T "salt") (_T "abc") MIN_SALT MAX_SALT 499 0
  = Done (mkIntegerArg 0 [] 0)
  /\ getIntegerArg (_T "hashType") (_T "abc") MIN_HASH_TYPE MAX_HASH_TYPE 499 0
     = Done (mkIntegerArg 0 (msg_below_minimum (_T "hashType") 1) 0)
  /\ getIntegerArg (_T "iterationCount") (_T "abc") MIN_ITERATION_COUNT MAX_ITERATION_COUNT 499 0
     = Done (mkIntegerArg 0 (msg_below_minimum (_T "iterationCount") 1) 0)
  /\ (exists r : Run,
        _tmain (example_platform every_allocation 0 0 0)
          [_T "pbkdf2"; _T "1"; _T "abc"; _T "1"; _T "pw"] = Done r /\
        returnValue r = 0 /\ stderr r = [] /\
        (di_pSalt <$> derivation r) = Some (Some [Some 0; Some 0; Some 0; Some 0])).
Proof.
  split; [vm_compute; reflexivity |].
  split; [vm_compute; reflexivity |].
  split; [vm_compute; reflexivity |].
  eexists. split; [vm_compute; reflexivity |].
  cbn. repeat split.
Qed.

(** C6: what a run hands to the derivation.  With a fifth argument the
    salt is the decoding of the salt argument, which is hexadecimal
    throughout, and the password is the UTF-8 conversion of the password
    argument; without one the salt is the four bytes, lowest first, of the
    salt argument read as an integer between 0 and INT_MAX, and the password
    is the bytes behind the characters of the argument. *)
Theorem mode_seam (pf : Platform) (argv : list text) (r : Run) (d : DerivationInput) :
  _tmain pf argv = Done r -> derivation r = Some d ->
  let saltArg := nth 2 argv [] in
  let passwordArg := nth 4 argv [] in
  if Z.of_nat (length argv) >=? 6 then
    all_hex saltArg /\
    di_pSalt d = Some (map Some (hex_decode saltArg)) /\
    di_saltSize d = Z.of_nat (length (hex_decode saltArg)) /\
    di_password d = Some (map Some (utf8_of pf passwordArg)) /\
    di_passwordSize d = Z.of_nat (length (utf8_of pf passwordArg))
  else
    exists (a : IntegerArg) (bytes : list TOCTET),
      getIntegerArg (_T "salt") saltArg MIN_SALT MAX_SALT 499 0 = Done a /\
      MIN_SALT <= ia_result a <= MAX_SALT /\
      di_pSalt d = Some (map Some bytes) /\
      length bytes = 4%nat /\ Forall is_byte bytes /\
      little_endian bytes = ia_result a /\
      di_saltSize d = 4 /\
      di_password d = Some (map Some (native_bytes pf passwordArg)) /\
      di_passwordSize d = Z.of_nat (length passwordArg) * sizeof_TCHAR pf.
Proof.
  intros Hrun Hd saltArg passwordArg.
  unfold _tmain in Hrun. cbv zeta in Hrun. fold saltArg passwordArg in Hrun.
  destruct (Z.of_nat (length argv) >=? 5) eqn:Hargc.
  2:{ case_bind Hrun. unfold Exit in Hrun. injection Hrun as <-. discriminate Hd. }
  case_bind Hrun. rename a into a1, E into E1.
  destruct (IS_ERROR_MSG_SET (ia_errorBuffer a1)) eqn:He1.
  { unfold Exit in Hrun. injection Hrun as <-. discriminate Hd. }
  destruct (getIntegerArg_accepts _ _ _ _ _ _ E1 He1) as [Herrno1 _].
  rewrite Herrno1 in Hrun.
  case_bind Hrun. rename a into s, E into Es.
  destruct (IS_ERROR_MSG_SET (salt_errorBuffer s)) eqn:Hes.
  { unfold Exit in Hrun. injection Hrun as <-. discriminate Hd. }
  case_bind Hrun. rename a into a3, E into E3.
  destruct (IS_ERROR_MSG_SET (ia_errorBuffer a3)) eqn:He3.
  { unfold Exit in Hrun. injection Hrun as <-. discriminate Hd. }
  unfold get_salt, safeHexStringToByteArray in Es.
  destruct (Z.of_nat (length argv) >=? 6) eqn:Hright.
  - (* the right way *)
    case_bind Es. rename a into hb, E into Eh. injection Es as <-.
    cbn [salt_errorBuffer] in Hes.
    destruct (hexStringToByteArray_accepts _ _ _ _ _ Eh Hes) as [Hall ->].
    case_bind Hrun. rename a into e, E into Ee.
    destruct (IS_ERROR_MSG_SET (enc_errorBuffer e)) eqn:Hee; cbn [negb] in Hrun.
    { unfold Exit in Hrun. injection Hrun as <-. discriminate Hd. }
    destruct (getPasswordUTF8Encoding_accepts _ _ _ _ Ee Hee) as [Hb Hs].
    apply derive_and_print_derivation in Hrun. rewrite Hrun in Hd.
    injection Hd as <-. cbn. rewrite Hb, Hs. repeat split. exact Hall.
  - (* the wrong way *)
    case_bind Es. rename a into a2, E into E2. injection Es as <-.
    cbn [salt_errorBuffer] in Hes.
    destruct (getIntegerArg_accepts _ _ _ _ _ _ E2 Hes) as [_ Hrange].
    apply derive_and_print_derivation in Hrun. rewrite Hrun in Hd.
    injection Hd as <-. cbn [di_pSalt di_saltSize di_password di_passwordSize
                               salt_array salt_arraySize].
    exists a2, (object_bytes (Z.to_nat sizeof_int) (ia_result a2)).
    destruct (object_bytes_are_bytes (Z.to_nat sizeof_int) (ia_result a2)) as [Hb Hl].
    split; [reflexivity |]. split; [exact Hrange |]. split; [reflexivity |].
    split; [exact Hl |]. split; [exact Hb |].
    split.
    { rewrite little_endian_object_bytes. apply Z.mod_small.
      unfold MIN_SALT, MAX_SALT, INT_MAX in Hrange.
      change (256 ^ Z.of_nat (Z.to_nat sizeof_int)) with 4294967296. lia. }
    repeat split.
Qed.

Lemma mode_seam_example :
  (exists (r : Run) (d : DerivationInput),
     _tmain (example_platform every_allocation 0 0 0)
       [_T "pbkdf2"; _T "2"; _T "0010"; _T "1"; _T "test"; _T "x"] = Done r /\
     derivation r = Some d /\
     di_pSalt d = Some [Some 0; Some 16] /\
     di_password d = Some [Some 116; Some 101; Some 115; Some 116])
  /\
  (exists (r : Run) (d : DerivationInput) (bytes : list TOCTET),
     _tmain (example_platform every_allocation 0 0 0)
       [_T "pbkdf2"; _T "2"; _T "258"; _T "1"; _T "test"] = Done r /\
     derivation r = Some d /\
     di_pSalt d = Some (map Some bytes) /\ little_endian bytes = 258 /\
     di_password d
     = Some [Some 116; Some 0; Some 101; Some 0; Some 115; Some 0; Some 116; Some 0]).
Proof.
  set (pf := example_platform every_allocation 0 0 0).
  split.
  - set (argv := [_T "pbkdf2"; _T "2"; _T "0010"; _T "1"; _T "test"; _T "x"]).
    destruct (_tmain pf argv) as [r |] eqn:Hrun; [| vm_compute in Hrun; discriminate Hrun].
    destruct (derivation r) as [d |] eqn:Hd.
    2:{ vm_compute in Hrun. injection Hrun as <-. discriminate Hd. }
    exists r, d. split; [reflexivity |]. split; [exact Hd |].
    destruct (mode_seam pf argv r d Hrun Hd) as (_ & Hs & _ & Hp & _).
    split; [exact Hs | exact Hp].
  - set (argv := [_T "pbkdf2"; _T "2"; _T "258"; _T "1"; _T "test"]).
    destruct (_tmain pf argv) as [r |] eqn:Hrun; [| vm_compute in Hrun; discriminate Hrun].
    destruct (derivation r) as [d |] eqn:Hd.
    2:{ vm_compute in Hrun. injection Hrun as <-. discriminate Hd. }
    destruct (mode_seam pf argv r d Hrun Hd)
      as (a & bytes & Ha & _ & Hs & _ & _ & Hle & _ & Hp & _).
    exists r, d, bytes. split; [reflexivity |]. split; [exact Hd |].
    split; [exact Hs |]. split; [| exact Hp].
    rewrite Hle. vm_compute in Ha. injection Ha as <-. reflexivity.
Defined.

(** C7: for a hash type from 1 to 5 the selection is the algorithm the
    specification names: 1 SHA-1, 2 SHA-256, 3 SHA-384, 4 and 5 SHA-512;
    the argument text is accepted with that value, and 4 and 5 give one
    identifier, hence one digest length on every platform. *)
Theorem hash_algorithm_selection (hashType : Z) :
  1 <= hashType <= 5 ->
  exists a : HashAlgorithmId,
    algorithm_of_index hashType = Some a /\
    getIntegerArg (_T "hashType") (decimal hashType) MIN_HASH_TYPE MAX_HASH_TYPE 499 0
    = Done (mkIntegerArg hashType [] 0) /\
    selected_algorithm (hashType - 1) = identifier a /\
    algorithm_of_index 4 = Some SHA_512 /\ algorithm_of_index 5 = Some SHA_512 /\
    selected_algorithm (4 - 1) = selected_algorithm (5 - 1) /\
    forall pf : Platform,
      BCryptGetProperty pf (selected_algorithm (4 - 1))
      = BCryptGetProperty pf (selected_algorithm (5 - 1)).
Proof.
  intros H.
  assert (Hc : hashType = 1 \/ hashType = 2 \/ hashType = 3 \/ hashType = 4 \/ hashType = 5)
    by lia.
  destruct Hc as [-> | [-> | [-> | [-> | ->]]]].
  - exists SHA_1. repeat split.
  - exists SHA_256. repeat split.
  - exists SHA_384. repeat split.
  - exists SHA_512. repeat split.
  - exists SHA_512. repeat split.
Qed.

Lemma hash_algorithm_selection_example :
  1 <= 4 <= 5 /\
  exists a : HashAlgorithmId,
    algorithm_of_index 4 = Some a /\
    getIntegerArg (_T "hashType") (decimal 4) MIN_HASH_TYPE MAX_HASH_TYPE 499 0
    = Done (mkIntegerArg 4 [] 0) /\
    selected_algorithm (4 - 1) = identifier a /\
    algorithm_of_index 4 = Some SHA_512 /\ algorithm_of_index 5 = Some SHA_512 /\
    selected_algorithm (4 - 1) = selected_algorithm (5 - 1) /\
    forall pf : Platform,
      BCryptGetProperty pf (selected_algorithm (4 - 1))
      = BCryptGetProperty pf (selected_algorithm (5 - 1)).
Proof.
  assert (H : 1 <= 4 <= 5) by lia.
  split; [exact H |]. exact (hash_algorithm_selection 4 H).
Defined.

(** C8, as the specification states it, fails in its last part: the message
    for 6000000 does not hold the value. *)
Lemma bound_message_omits_the_value :
  exists a : IntegerArg,
    getIntegerArg (_T "iterationCount") (_T "6000000") MIN_ITERATION_COUNT
      MAX_ITERATION_COUNT 499 0 = Done a /\
    ia_errorBuffer a <> [] /\
    ~ names (_T "6000000") (ia_errorBuffer a).
Proof.
  eexists. split; [vm_compute; reflexivity |].
  split; [discriminate |].
  intros H. apply names_occurs_in in H. vm_compute in H. discriminate H.
Qed.

(** C8, amended: for the iteration count 0 is reported as smaller than
    the minimum and 6000000 as larger than the maximum, 1 and 5000000 are
    returned as they are; a message names the argument and the bound, and is
    the same for every value on that side of the bound. *)
Theorem iteration_count_bounds :
  let parse := fun pArg =>
    getIntegerArg (_T "iterationCount") (_T pArg) MIN_ITERATION_COUNT MAX_ITERATION_COUNT 499 0 in
  let below := [quote] ++ _T "iterationCount" ++ [quote]
                 ++ _T " is smaller than minimum value of 1" ++ [newline] in
  let above := [quote] ++ _T "iterationCount" ++ [quote]
                 ++ _T " is larger than maximum value of 5000000" ++ [newline] in
  parse "0"%string = Done (mkIntegerArg 0 below 0)
  /\ parse "-7"%string = Done (mkIntegerArg 0 below 0)
  /\ parse "6000000"%string = Done (mkIntegerArg 0 above 0)
  /\ parse "7000000"%string = Done (mkIntegerArg 0 above 0)
  /\ parse "1"%string = Done (mkIntegerArg 1 [] 0)
  /\ parse "5000000"%string = Done (mkIntegerArg 5000000 [] 0)
  /\ names (_T "iterationCount") below /\ names (decimal MIN_ITERATION_COUNT) below
  /\ names (_T "iterationCount") above /\ names (decimal MAX_ITERATION_COUNT) above.
Proof.
  cbv zeta.
  repeat (split; [vm_compute; reflexivity |]).
  split; [| split; [| split]].
  - exists [quote], ([quote] ++ _T " is smaller than minimum value of 1" ++ [newline]).
    reflexivity.
  - exists ([quote] ++ _T "iterationCount" ++ [quote] ++ _T " is smaller than minimum value of "),
      [newline]. reflexivity.
  - exists [quote], ([quote] ++ _T " is larger than maximum value of 5000000" ++ [newline]).
    reflexivity.
  - exists ([quote] ++ _T "iterationCount" ++ [quote] ++ _T " is larger than maximum value of "),
      [newline]. reflexivity.
Qed.

(** ** The claims about the encoder and the decoder *)

(** C2, as the specification states it, fails on two bytes: the encoder
    writes "00 01" and the decoder stops at the space. *)
Lemma round_trip_fails_on_two_bytes : ~ round_trip [0; 1].
Proof.
  intros (p & t & r & H1 & H2 & H3 & H4 & H5).
  vm_compute in H1. injection H1 as <-.
  vm_compute in H2. injection H2 as <-.
  vm_compute in H3. injection H3 as <-.
  discriminate H5.
Qed.

(** C2, amended: for one byte or more, decoding the text of the encoder
    with the spaces taken out gives the bytes back, without an error. *)
Theorem round_trip_without_separators (B : list TOCTET) (byteArraySize errorBufferSize : Z) :
  B <> [] -> Forall is_byte B ->
  exists (p : tblock) (t : text),
    bytesToHex true B = Done (Some p) /\ c_string p = Some t /\
    hexStringToByteArray true (remove_separators t) byteArraySize errorBufferSize
    = Done (mkHexBytes (Some (map Some B)) (Z.of_nat (length B)) []).
Proof.
  intros Hne HB. destruct B as [| b bs]; [contradiction |].
  exists (map Some (hex_text (b :: bs) ++ [0])), (hex_text (b :: bs)).
  split; [apply bytesToHex_spec; assumption |].
  split; [apply c_string_terminated, hex_text_nonzero; assumption |].
  rewrite remove_separators_hex_text by assumption.
  rewrite hexStringToByteArray_valid by (apply flat_map_hex_pair_all_hex; assumption).
  rewrite hex_decode_flat_map_hex_pair by assumption. reflexivity.
Qed.

Lemma round_trip_without_separators_example :
  [0; 1; 171] <> [] /\ Forall is_byte [0; 1; 171] /\
  exists (p : tblock) (t : text),
    bytesToHex true [0; 1; 171] = Done (Some p) /\ c_string p = Some t /\
    hexStringToByteArray true (remove_separators t) 0 499
    = Done (mkHexBytes (Some [Some 0; Some 1; Some 171]) 3 []).
Proof.
  assert (H1 : [0; 1; 171] <> []) by discriminate.
  assert (H2 : Forall is_byte [0; 1; 171]) by (repeat constructor; unfold is_byte; lia).
  split; [exact H1 |]. split; [exact H2 |].
  exact (round_trip_without_separators [0; 1; 171] 0 499 H1 H2).
Defined.

(** C4: a hexadecimal text of odd length decodes without an error into
    (length + 1) / 2 bytes; its first character alone makes the first byte,
    whose high half is zero and whose low half is the value of the
    character; the digits behind it are taken in pairs.  The text "A" gives
    the single byte 0x0A. *)
Theorem odd_length_hex_decodes (c : TCHAR) (rest : text) (byteArraySize errorBufferSize : Z) :
  all_hex (c :: rest) -> Nat.odd (length (c :: rest)) = true ->
  let first := hex_value c in
  let bytes := first :: decode_pairs (map hex_value rest) in
  hexStringToByteArray true (c :: rest) byteArraySize errorBufferSize
  = Done (mkHexBytes (Some (map Some bytes)) (Z.of_nat ((length (c :: rest) + 1) / 2)) [])
  /\ length bytes = ((length (c :: rest) + 1) / 2)%nat
  /\ Z.land first 15 = first /\ Z.shiftr first 4 = 0.
Proof.
  intros Hhex Hodd first bytes.
  pose proof (hexStringToByteArray_valid (c :: rest) byteArraySize errorBufferSize Hhex) as H.
  assert (Hd : hex_decode (c :: rest) = bytes).
  { unfold hex_decode. rewrite Hodd. reflexivity. }
  assert (Hl : length bytes = ((length (c :: rest) + 1) / 2)%nat).
  { rewrite <- Hd. unfold hex_decode.
    rewrite <- pack_decode_from by (apply all_hex_nibbles; assumption).
    rewrite pack_length, length_map. apply half_up. }
  inversion Hhex as [| ? ? Hc _]; subst.
  destruct (getHexCharValue_hex c Hc) as [_ Hr].
  split; [| split; [exact Hl | split]].
  - rewrite H, Hd, <- Hl. reflexivity.
  - change 15 with (Z.ones 4). rewrite Z.land_ones by lia.
    apply Z.mod_small. subst first. change (2 ^ 4) with 16. lia.
  - rewrite Z.shiftr_div_pow2 by lia. apply Z.div_small. subst first.
    change (2 ^ 4) with 16. lia.
Qed.

Lemma odd_length_hex_decodes_A :
  all_hex (_T "A") /\ Nat.odd (length (_T "A")) = true /\
  hexStringToByteArray true (_T "A") 0 499 = Done (mkHexBytes (Some [Some 10]) 1 []).
Proof.
  assert (H1 : all_hex (_T "A")) by (repeat constructor).
  assert (H2 : Nat.odd (length (_T "A")) = true) by reflexivity.
  split; [exact H1 |]. split; [exact H2 |].
  exact (proj1 (odd_length_hex_decodes 65 [] 0 499 H1 H2)).
Defined.

(** C5: on a buffer of no bytes [bytesToHex] does not produce the empty
    text: the block it asks for has no cell, and the terminator is written
    to the offset -1, in front of the block.  A run with the empty text as
    hexadecimal salt comes there.  On every buffer of one byte or
    more it produces two upper-case digits a byte with one space between two
    bytes and nothing after the last, 3 n - 1 characters for n bytes. *)
Theorem bytesToHex_empty_out_of_bounds :
  bytesToHex true [] = Abort OutOfBounds /\
  _tmain (example_platform every_allocation 0 0 0)
    [_T "pbkdf2"; _T "1"; []; _T "1"; _T "pw"; _T "x"] = Abort OutOfBounds /\
  forall (b : TOCTET) (bs : list TOCTET),
    Forall is_byte (b :: bs) ->
    exists p : tblock,
      bytesToHex true (b :: bs) = Done (Some p) /\
      c_string p = Some (hex_text (b :: bs)) /\
      Z.of_nat (length (hex_text (b :: bs))) = 3 * Z.of_nat (length (b :: bs)) - 1.
Proof.
  split; [reflexivity |].
  split; [vm_compute; reflexivity |].
  intros b bs H. exists (map Some (hex_text (b :: bs) ++ [0])).
  split; [apply bytesToHex_spec; assumption |].
  split; [apply c_string_terminated, hex_text_nonzero; assumption |].
  apply hex_text_length.
Qed.

(** C9: for a text with a character outside 0-9A-Fa-f the decoder is to
    fail with a message that names the character, its position and the text.
    [hexStringToByteArray] formats that message, the whole text included, into
    the caller's error buffer of 499 characters without looking at the length
    of the text: for the text G followed by 500 zeros the formatting ends in
    the invalid parameter handler, the function does not return and no message
    is reported. *)
Lemma long_hex_text_overflows_error_buffer :
  hexStringToByteArray true (_T "G" ++ replicate 500 48) 0 499 = Abort InvalidParameter.
Proof. vm_compute. reflexivity. Qed.

(** X24: when the text has a character outside 0-9A-Fa-f and the
    message fits into the error buffer, [hexStringToByteArray] returns with
    "Invalid hex character 'c' at position p of hex string "text"" in the
    error buffer, for the first such character c and its position p counted
    from 1; the characters behind it are not looked at. *)
Theorem invalid_hex_character_reported (good : text) (c : TCHAR) (rest : text)
    (byteArraySize errorBufferSize : Z) :
  all_hex good -> is_hex_digit c = false ->
  let hexText := good ++ c :: rest in
  let position := Z.of_nat (length good) + 1 in
  let message := msg_invalid_hex c position hexText in
  Z.of_nat (length message) < errorBufferSize ->
  exists r : HexBytes,
    hexStringToByteArray true hexText byteArraySize errorBufferSize = Done r /\
    hb_errorBuffer r = message /\
    IS_ERROR_MSG_SET (hb_errorBuffer r) = true /\
    names (_T "Invalid hex character '" ++ [c] ++ _T "'") message /\
    names (_T " at position " ++ decimal position ++ _T " ") message /\
    names (_T " of hex string " ++ [quote] ++ hexText ++ [quote]) message.
Proof.
  intros Hgood Hc hexText position message Hfit.
  destruct (hexStringToByteArray_invalid good c rest byteArraySize errorBufferSize Hgood Hc)
    as [_ H].
  fold hexText position message in H.
  unfold _stprintf_s in H.
  replace (Z.of_nat (length message) <? errorBufferSize) with true in H
    by (symmetry; apply Z.ltb_lt; assumption).
  cbn [bind] in H.
  eexists. split; [exact H |]. cbn [hb_errorBuffer].
  split; [reflexivity |]. split; [reflexivity |].
  subst message. unfold msg_invalid_hex.
  split; [| split].
  - eapply (names_intro []). cbn [app]. rewrite <- !app_assoc. reflexivity.
  - eapply (names_intro (_T "Invalid hex character '" ++ [c] ++ _T "'")).
    rewrite <- !app_assoc. cbn [app]. reflexivity.
  - eapply (names_intro (_T "Invalid hex character '" ++ [c] ++ _T "' at position " ++ decimal position)
              _ [newline]).
    rewrite <- !app_assoc. cbn [app]. reflexivity.
Qed.

Lemma invalid_hex_character_reported_example :
  all_hex (_T "0") /\ is_hex_digit 103 = false /\
  Z.of_nat (length (msg_invalid_hex 103 2 (_T "0g10"))) < 499 /\
  exists r : HexBytes,
    hexStringToByteArray true (_T "0g10") 0 499 = Done r /\
    hb_errorBuffer r = msg_invalid_hex 103 2 (_T "0g10") /\
    IS_ERROR_MSG_SET (hb_errorBuffer r) = true /\
    names (_T "Invalid hex character '" ++ [103] ++ _T "'") (msg_invalid_hex 103 2 (_T "0g10")) /\
    names (_T " at position " ++ decimal 2 ++ _T " ") (msg_invalid_hex 103 2 (_T "0g10")) /\
    names (_T " of hex string " ++ [quote] ++ _T "0g10" ++ [quote])
      (msg_invalid_hex 103 2 (_T "0g10")).
Proof.
  assert (H1 : all_hex (_T "0")) by (repeat constructor).
  assert (H2 : is_hex_digit 103 = false) by reflexivity.
  assert (H3 : Z.of_nat (length (msg_invalid_hex 103 2 (_T "0g10"))) < 499)
    by (vm_compute; reflexivity).
  split; [exact H1 |]. split; [exact H2 |]. split; [exact H3 |].
  exact (invalid_hex_character_reported (_T "0") 103 (_T "10") 0 499 H1 H2 H3).
Defined.

(** C10: on an invalid character the decoder is to hand the block it
    allocated, partly filled, to the caller, who frees it.  For a salt whose
    message does not fit into the error buffer (00G followed by 500 zeros)
    the formatting of the message ends the process inside
    [hexStringToByteArray], after the block was allocated and two digits were
    decoded: nothing is returned to [_tmain], which neither reports the
    message nor gets to free the block. *)
Lemma long_invalid_salt_aborts_the_run :
  hexStringToByteArray true (_T "00G" ++ replicate 500 48) 0 499 = Abort InvalidParameter /\
  _tmain (example_platform every_allocation 0 0 0)
    [_T "pbkdf2"; _T "1"; _T "00G" ++ replicate 500 48; _T "1"; _T "pw"; _T "x"]
  = Abort InvalidParameter.
Proof. split; vm_compute; reflexivity. Qed.

(** X25: when the decoder meets an invalid character, the block was
    allocated and the message fits into the error buffer, it returns the
    block of (length + 1) / 2 cells and has set the size to that number; the
    cells hold the bytes completed before the failure and are unwritten from
    there on, at least one of them; the failure shows in the error buffer
    only.  [_tmain] then writes the message, frees that block and exits
    with 2. *)
Theorem invalid_hex_leaves_partial_buffer (good : text) (c : TCHAR) (rest : text)
    (byteArraySize errorBufferSize : Z) :
  all_hex good -> is_hex_digit c = false ->
  let hexText := good ++ c :: rest in
  let message := msg_invalid_hex c (Z.of_nat (length good) + 1) hexText in
  let size := ((length hexText + 1) / 2)%nat in
  let written := decode_from (Nat.odd (length hexText)) (map hex_value good) in
  let buffer := map Some written ++ replicate (size - length written) None in
  Z.of_nat (length message) < errorBufferSize ->
  hexStringToByteArray true hexText byteArraySize errorBufferSize
  = Done (mkHexBytes (Some buffer) (Z.of_nat size) message)
  /\ length buffer = size
  /\ (length written < size)%nat
  /\ IS_ERROR_MSG_SET message = true
  /\ (errorBufferSize = 499 ->
      forall (pf : Platform) (program hashType iterationCount password fifth : text)
             (more : list text) (a : IntegerArg),
        malloc pf AllocHexBytes = true ->
        getIntegerArg (_T "hashType") hashType MIN_HASH_TYPE MAX_HASH_TYPE 499 0 = Done a ->
        ia_errorBuffer a = [] ->
        _tmain pf (program :: hashType :: hexText :: iterationCount :: password :: fifth :: more)
        = Done (mkRun 2 [] [message] None [buffer])).
Proof.
  intros Hgood Hc hexText message size written buffer Hfit.
  destruct (hexStringToByteArray_invalid good c rest byteArraySize errorBufferSize Hgood Hc)
    as [Hlt H].
  fold hexText message size written buffer in H, Hlt.
  assert (Hprint : forall n, Z.of_nat (length message) < n -> _stprintf_s n message = Done message).
  { intros n Hn. unfold _stprintf_s.
    replace (Z.of_nat (length message) <? n) with true by (symmetry; apply Z.ltb_lt; exact Hn).
    reflexivity. }
  rewrite (Hprint _ Hfit) in H. cbn [bind] in H.
  split; [exact H |].
  split.
  { subst buffer. rewrite length_app, length_map, length_replicate. lia. }
  split; [exact Hlt |].
  split; [reflexivity |].
  intros -> pf program hashType iterationCount password fifth more a Hmalloc Ha Hna.
  unfold _tmain. cbv zeta. cbn [length nth].
  rewrite argc_at_least_5, argc_at_least_6.
  change (getIntegerArg (_T "hashType") hashType MIN_HASH_TYPE MAX_HASH_TYPE 499 0)
    with (getIntegerArg (_T "hashType") hashType MIN_HASH_TYPE MAX_HASH_TYPE 499 0) in *.
  rewrite Ha. cbn [bind]. rewrite Hna. cbn [IS_ERROR_MSG_SET].
  unfold get_salt, safeHexStringToByteArray. rewrite Hmalloc.
  destruct (hexStringToByteArray_invalid good c rest (indeterminate pf) 499 Hgood Hc)
    as [_ H'].
  fold hexText message size written buffer in H'.
  rewrite (Hprint _ Hfit) in H'. cbn [bind] in H'.
  rewrite H'. cbn [bind hb_result hb_byteArraySize hb_errorBuffer salt_errorBuffer salt_release].
  reflexivity.
Qed.

Lemma invalid_hex_leaves_partial_buffer_example :
  all_hex (_T "0a1") /\ is_hex_digit 103 = false /\
  Z.of_nat (length (msg_invalid_hex 103 4 (_T "0a1g10"))) < 499 /\
  hexStringToByteArray true (_T "0a1g10") 0 499
  = Done (mkHexBytes (Some [Some 10; None; None]) 3 (msg_invalid_hex 103 4 (_T "0a1g10"))) /\
  _tmain (example_platform every_allocation 0 0 0)
    [_T "pbkdf2"; _T "1"; _T "0a1g10"; _T "1"; _T "pw"; _T "x"]
  = Done (mkRun 2 [] [msg_invalid_hex 103 4 (_T "0a1g10")] None [[Some 10; None; None]]).
Proof.
  assert (H1 : all_hex (_T "0a1")) by (repeat constructor).
  assert (H2 : is_hex_digit 103 = false) by reflexivity.
  assert (H3 : Z.of_nat (length (msg_invalid_hex 103 4 (_T "0a1g10"))) < 499)
    by (vm_compute; reflexivity).
  split; [exact H1 |]. split; [exact H2 |]. split; [exact H3 |].
  destruct (invalid_hex_leaves_partial_buffer (_T "0a1") 103 (_T "10") 0 499 H1 H2 H3)
    as (Hf & _ & _ & _ & Hm).
  split; [exact Hf |].
  exact (Hm eq_refl (example_platform every_allocation 0 0 0)
           (_T "pbkdf2") (_T "1") (_T "1") (_T "pw") (_T "x") [] (mkIntegerArg 1 [] 0)
           eq_refl eq_refl eq_refl).
Defined.

(** * Further properties of the code *)

Lemma leading_digits_uint (d : Decimal.uint) :
  forall (acc : Z) (tail : text),
    leading_digits acc (_T (NilEmpty.string_of_uint d) ++ tail)
    = leading_digits (uint_value d acc) tail.
Proof.
  induction d; intros acc tail; cbn [NilEmpty.string_of_uint uint_value];
    try reflexivity;
    (change (_T (String ?c ?s)) with (Z.of_nat (nat_of_ascii c) :: _T s);
     cbn [app leading_digits]; cbv [is_digit]; simpl Z.of_nat; cbn [Z.leb Z.compare Pos.compare Pos.compare_cont andb];
     rewrite IHd; do 2 f_equal;
     match goal with
     | |- context [Z.of_nat (nat_of_ascii ?c)] =>
         let v := eval vm_compute in (Z.of_nat (nat_of_ascii c)) in
         change (Z.of_nat (nat_of_ascii c)) with v
     end; lia).
Qed.

Lemma uint_value_pos (d : Decimal.uint) :
  forall p : positive, uint_value d (Z.pos p) = Z.pos (Pos.of_uint_acc d p).
Proof.
  induction d; intros p; cbn [uint_value Pos.of_uint_acc]; try reflexivity;
    (etransitivity; [| apply IHd]; f_equal; lia).
Qed.

Lemma uint_value_0 (d : Decimal.uint) : uint_value d 0 = Z.of_uint d.
Proof.
  unfold Z.of_uint.
  induction d; cbn [uint_value Pos.of_uint]; try reflexivity;
    try (change (10 * 0) with 0; exact IHd);
    (match goal with
     | |- uint_value _ ?a = _ =>
         let v := eval cbv in a in change a with v
     end; rewrite uint_value_pos; reflexivity).
Qed.

Lemma leading_digits_decimal (d : Decimal.uint) (tail : text) :
  leading_digits 0 (_T (NilZero.string_of_uint d) ++ tail)
  = leading_digits (Z.of_uint d) tail.
Proof.
  rewrite <- uint_value_0.
  destruct d; try apply leading_digits_uint. reflexivity.
Qed.

(** The first character of an unsigned decimal text is a digit. *)
Lemma string_of_uint_head (d : Decimal.uint) :
  exists (c : TCHAR) (r : text),
    _T (NilZero.string_of_uint d) = c :: r /\ is_digit c = true.
Proof.
  destruct d; (eexists; eexists; split; [reflexivity | reflexivity]).
Qed.

Lemma leading_digits_end (acc : Z) (tail : text) :
  ends_number tail -> leading_digits acc tail = acc.
Proof. destruct tail as [| c r]; [reflexivity |]. cbn. intros ->. reflexivity. Qed.

Lemma digit_not_sign_or_space (c : TCHAR) :
  is_digit c = true -> is_space c = false /\ c <> 45 /\ c <> 43.
Proof.
  unfold is_digit, is_space. intros H. apply andb_prop in H. destruct H as [H1 H2].
  apply Z.leb_le in H1, H2.
  split; [| lia].
  destruct (Z.leb_spec 9 c), (Z.leb_spec c 13), (Z.eqb_spec c 32); cbn; try reflexivity; lia.
Qed.

Lemma _ttoi_unsigned (c : TCHAR) (r : text) (errno : Z) :
  is_digit c = true ->
  _ttoi (c :: r) errno = clamp (leading_digits 0 (c :: r)) errno.
Proof.
  intros Hc. destruct (digit_not_sign_or_space c Hc) as (Hs & H45 & H43).
  unfold _ttoi, clamp. cbn [skip_spaces]. rewrite Hs.
  clear Hc Hs.
  destruct c as [| p | p]; try reflexivity.
  do 6 (destruct p as [p | p |]; try reflexivity); lia.
Qed.

Lemma _ttoi_decimal (z : Z) (tail : text) (errno : Z) :
  ends_number tail -> _ttoi (decimal z ++ tail) errno = clamp z errno.
Proof.
  intros Htail. unfold decimal.
  destruct z as [| p | p]; cbn [Z.to_int NilZero.string_of_int].
  - destruct (string_of_uint_head (Decimal.D0 Decimal.Nil)) as (c & r & E & Hc).
    rewrite E. cbn [app]. rewrite _ttoi_unsigned by exact Hc.
    change (c :: r ++ tail) with ((c :: r) ++ tail). rewrite <- E.
    rewrite leading_digits_decimal, leading_digits_end by exact Htail. reflexivity.
  - destruct (string_of_uint_head (Pos.to_uint p)) as (c & r & E & Hc).
    rewrite E. cbn [app]. rewrite _ttoi_unsigned by exact Hc.
    change (c :: r ++ tail) with ((c :: r) ++ tail). rewrite <- E.
    rewrite leading_digits_decimal, leading_digits_end by exact Htail.
    f_equal. exact (DecimalZ.of_to (Z.pos p)).
  - change (_T (String "-" ?s)) with (45 :: _T s).
    unfold _ttoi, clamp. cbn [app skip_spaces]. change (is_space 45) with false. cbv iota.
    rewrite leading_digits_decimal, leading_digits_end by exact Htail.
    pose proof (DecimalZ.of_to (Z.neg p)) as H. cbn [Z.to_int Z.of_int] in H.
    rewrite H. reflexivity.
Qed.

(** X1: [getHexCharValue] reads the digits 0-9 as 0..9, the letters A-F
    as 10..15 and the letters a-f as the value of their upper-case form; every
    other character gives 255. So the result is a value below 16 or the marker
    255, which is no value of a hexadecimal digit. *)
Theorem getHexCharValue_characterised (c : TCHAR) :
  (48 <= c <= 57 -> getHexCharValue c = c - 48) /\
  (65 <= c <= 70 -> getHexCharValue c = c - 55) /\
  (97 <= c <= 102 -> getHexCharValue c = c - 87 /\ getHexCharValue c = getHexCharValue (c - 32)) /\
  (~ (48 <= c <= 57 \/ 65 <= c <= 70 \/ 97 <= c <= 102) -> getHexCharValue c = 255) /\
  (0 <= getHexCharValue c <= 15 \/ getHexCharValue c = 255).
Proof.
  assert (Hhex : forall x, is_hex_digit x = true <-> (48 <= x <= 57 \/ 65 <= x <= 70 \/ 97 <= x <= 102)).
  { intros x. unfold is_hex_digit. lia. }
  assert (Hval : forall x, is_hex_digit x = true -> getHexCharValue x = hex_value x)
    by (intros x Hx; apply getHexCharValue_hex; exact Hx).
  split; [| split; [| split; [| split]]].
  - intros H. rewrite Hval by (apply Hhex; lia). unfold hex_value.
    destruct (Z.leb_spec c 57); lia.
  - intros H. rewrite Hval by (apply Hhex; lia). unfold hex_value.
    destruct (Z.leb_spec c 57); [lia |]. destruct (Z.leb_spec c 70); lia.
  - intros H. rewrite !Hval by (apply Hhex; lia). unfold hex_value.
    destruct (Z.leb_spec c 57); [lia |]. destruct (Z.leb_spec c 70); [lia |].
    destruct (Z.leb_spec (c - 32) 57); [lia |]. destruct (Z.leb_spec (c - 32) 70); lia.
  - intros H. apply getHexCharValue_other.
    destruct (is_hex_digit c) eqn:E; [| reflexivity]. apply Hhex in E. contradiction.
  - destruct (is_hex_digit c) eqn:E.
    + left. destruct (getHexCharValue_hex c E) as [-> Hr]. exact Hr.
    + right. apply getHexCharValue_other. exact E.
Qed.

Lemma even_not_odd (n : nat) : Nat.even n = true -> Nat.odd n = false.
Proof. intros H. rewrite <- Nat.negb_even, H. reflexivity. Qed.

(** X2: [hexStringToByteArray] turns a text of hexadecimal digits of even
    length into one byte for each pair of digits, the first digit of a pair
    being the high half; it stores half the text's length as the size and
    leaves the error buffer empty. *)
Theorem even_length_hex_decodes (hexText : text) (byteArraySize errorBufferSize : Z) :
  all_hex hexText -> Nat.even (length hexText) = true ->
  hexStringToByteArray true hexText byteArraySize errorBufferSize
  = Done (mkHexBytes (Some (map Some (decode_pairs (map hex_value hexText))))
            (Z.of_nat (length hexText / 2)) [])
  /\ length (decode_pairs (map hex_value hexText)) = (length hexText / 2)%nat.
Proof.
  intros Hall Heven.
  pose proof (even_not_odd _ Heven) as Hodd.
  assert (Hd : hex_decode hexText = decode_pairs (map hex_value hexText)).
  { unfold hex_decode. rewrite Hodd. reflexivity. }
  assert (Hl : length (decode_pairs (map hex_value hexText)) = (length hexText / 2)%nat).
  { rewrite <- Hd. unfold hex_decode.
    rewrite <- pack_decode_from by (apply all_hex_nibbles; exact Hall).
    rewrite pack_length, length_map, Hodd. f_equal. lia. }
  split; [| exact Hl].
  rewrite hexStringToByteArray_valid by exact Hall. rewrite Hd, Hl. reflexivity.
Qed.

Lemma even_length_hex_decodes_example :
  all_hex (_T "0010") /\ Nat.even (length (_T "0010")) = true /\
  hexStringToByteArray true (_T "0010") 0 499
  = Done (mkHexBytes (Some [Some 0; Some 16]) 2 []).
Proof.
  assert (H1 : all_hex (_T "0010")) by (repeat constructor).
  assert (H2 : Nat.even (length (_T "0010")) = true) by reflexivity.
  split; [exact H1 |]. split; [exact H2 |].
  exact (proj1 (even_length_hex_decodes (_T "0010") 0 499 H1 H2)).
Defined.

(** X3: whatever the text, [hexStringToByteArray] writes only into the
    block it allocated. When it returns a block, the block has one cell for
    every two characters of the text, rounded up, and the stored size is that
    number, also when an invalid character ended the decoding early. When the
    allocation failed it returns [NULL] and leaves the caller's size as it was.
    The only way it ends the process is the invalid parameter handler of
    [_stprintf_s]. *)
Theorem hexStringToByteArray_stays_in_its_block (malloc_ok : bool) (hexText : text)
    (byteArraySize errorBufferSize : Z) :
  match hexStringToByteArray malloc_ok hexText byteArraySize errorBufferSize with
  | Done r =>
      match hb_result r with
      | Some result =>
          malloc_ok = true /\
          length result = ((length hexText + 1) / 2)%nat /\
          hb_byteArraySize r = Z.of_nat (length result)
      | None => malloc_ok = false /\ hb_byteArraySize r = byteArraySize
      end
  | Abort f => f = InvalidParameter
  end.
Proof.
  destruct malloc_ok.
  - destruct (first_invalid hexText) as [Hall | (good & c & rest & -> & Hg & Hc)].
    + rewrite hexStringToByteArray_valid by exact Hall. cbn [hb_result hb_byteArraySize].
      split; [reflexivity |]. split; [| rewrite length_map; reflexivity].
      rewrite length_map. unfold hex_decode.
      rewrite <- pack_decode_from by (apply all_hex_nibbles; exact Hall).
      rewrite pack_length, length_map. apply half_up.
    + destruct (hexStringToByteArray_invalid good c rest byteArraySize errorBufferSize Hg Hc)
        as [Hlt H].
      cbv zeta in H, Hlt. rewrite H. unfold _stprintf_s.
      destruct (_ <? _); cbn [bind hb_result hb_byteArraySize]; [| reflexivity].
      split; [reflexivity |].
      rewrite length_app, length_map, length_replicate.
      split; [lia | f_equal; lia].
  - unfold hexStringToByteArray. cbv zeta. unfold _stprintf_s.
    destruct (_ <? _); cbn [bind hb_result hb_byteArraySize]; [| reflexivity].
    split; reflexivity.
Qed.

Lemma upper_case_hex (c : TCHAR) :
  is_hex_digit c = true ->
  is_hex_digit (upper_case c) = true /\ hex_value (upper_case c) = hex_value c.
Proof.
  unfold is_hex_digit, upper_case, hex_value. intros H.
  destruct (Z.leb_spec 97 c), (Z.leb_spec c 122); cbn [andb].
  all: repeat match goal with
         | |- context [?a <=? ?b] => destruct (Z.leb_spec a b)
         end; cbn [andb orb]; split; try reflexivity; try lia.
Qed.

Lemma upper_case_all_hex (s : text) :
  all_hex s ->
  all_hex (map upper_case s) /\ map hex_value (map upper_case s) = map hex_value s.
Proof.
  intros H. induction H as [| c s Hc Hs [IH1 IH2]].
  - split; [constructor | reflexivity].
  - destruct (upper_case_hex c Hc) as [H1 H2]. cbn [map]. split.
    + constructor; assumption.
    + rewrite H2, IH2. reflexivity.
Qed.

(** X4: the case of the letters makes no difference: for a text of
    hexadecimal digits [hexStringToByteArray] gives the same result as for the
    text with its letters in upper case. *)
Theorem hex_decoding_ignores_case (malloc_ok : bool) (hexText : text)
    (byteArraySize errorBufferSize : Z) :
  all_hex hexText ->
  hexStringToByteArray malloc_ok (map upper_case hexText) byteArraySize errorBufferSize
  = hexStringToByteArray malloc_ok hexText byteArraySize errorBufferSize.
Proof.
  intros Hall. destruct (upper_case_all_hex hexText Hall) as [Hup Hval].
  destruct malloc_ok.
  - rewrite !hexStringToByteArray_valid by assumption.
    unfold hex_decode. rewrite Hval, length_map. reflexivity.
  - reflexivity.
Qed.

Lemma hex_decoding_ignores_case_example :
  all_hex (_T "0afC") /\
  hexStringToByteArray true (_T "0AFC") 0 499 = hexStringToByteArray true (_T "0afC") 0 499 /\
  hexStringToByteArray true (_T "0afC") 0 499
  = Done (mkHexBytes (Some [Some 10; Some 252]) 2 []).
Proof.
  assert (H1 : all_hex (_T "0afC")) by (repeat constructor).
  split; [exact H1 |].
  split; [exact (hex_decoding_ignores_case true (_T "0afC") 0 499 H1) |].
  vm_compute. reflexivity.
Defined.

Lemma hex_pair_of_nibbles (hi lo : Z) :
  0 <= hi <= 15 -> 0 <= lo <= 15 ->
  hex_pair (16 * hi + lo)
  = [nth (Z.to_nat hi) HEX_DIGITS 0; nth (Z.to_nat lo) HEX_DIGITS 0].
Proof.
  intros Hhi Hlo. unfold hex_pair.
  replace ((16 * hi + lo) / 16) with hi by (apply Z.div_unique with (r := lo); lia).
  replace ((16 * hi + lo) mod 16) with lo by (apply Z.mod_unique with (q := hi); lia).
  reflexivity.
Qed.

Lemma HEX_DIGITS_of_hex_value (c : TCHAR) :
  is_hex_digit c = true -> nth (Z.to_nat (hex_value c)) HEX_DIGITS 0 = upper_case c.
Proof.
  intros Hc.
  pose (f := fun c => negb (is_hex_digit c)
                      || (nth (Z.to_nat (hex_value c)) HEX_DIGITS 0 =? upper_case c)).
  assert (Hf : f c = true).
  { apply (below_check f 103); [vm_compute; reflexivity |].
    unfold is_hex_digit in Hc. lia. }
  unfold f in Hf. rewrite Hc in Hf. apply Z.eqb_eq. exact Hf.
Qed.

Lemma decode_pairs_bytes (ds : list Z) : nibbles ds -> Forall is_byte (decode_pairs ds).
Proof.
  intros H. rewrite <- (pack_pairs ds 0 H).
  revert H. generalize 0 at 1. generalize false.
  induction ds as [| d ds IH]; intros il bv H; [constructor |].
  inversion H as [| ? ? Hd Hds]; subst. cbn [pack]. destruct il.
  - constructor; [| apply IH; exact Hds].
    unfold is_byte, to_TOCTET. apply Z.mod_pos_bound. lia.
  - apply IH. exact Hds.
Qed.

Lemma encode_decode_pairs_aux (n : nat) :
  forall s : text,
    (length s <= n)%nat -> all_hex s -> Nat.even (length s) = true ->
    flat_map hex_pair (decode_pairs (map hex_value s)) = map upper_case s.
Proof.
  induction n as [| n IH]; intros s Hn Hall Heven.
  - destruct s; [reflexivity | simpl in Hn; lia].
  - destruct s as [| c1 [| c2 s]]; [reflexivity | discriminate Heven |].
    inversion Hall as [| ? ? H1 Hall']; subst.
    inversion Hall' as [| ? ? H2 Hs]; subst.
    cbn [map decode_pairs flat_map].
    rewrite hex_pair_of_nibbles by (apply getHexCharValue_hex; assumption).
    rewrite !HEX_DIGITS_of_hex_value by assumption.
    rewrite IH; [reflexivity | simpl in Hn; lia | exact Hs |].
    cbn [length] in Heven. rewrite Nat.even_succ_succ in Heven. exact Heven.
Qed.

Lemma encode_decode_pairs (s : text) :
  all_hex s -> Nat.even (length s) = true ->
  flat_map hex_pair (decode_pairs (map hex_value s)) = map upper_case s.
Proof. apply (encode_decode_pairs_aux (length s)). lia. Qed.

Lemma encode_hex_decode (s : text) :
  all_hex s ->
  Forall is_byte (hex_decode s) /\
  flat_map hex_pair (hex_decode s)
  = (if Nat.odd (length s) then [48] else []) ++ map upper_case s.
Proof.
  intros Hall. unfold hex_decode, decode_from.
  destruct (Nat.odd (length s)) eqn:Hodd.
  - destruct s as [| c s]; [discriminate Hodd |].
    inversion Hall as [| ? ? Hc Hs]; subst.
    destruct (getHexCharValue_hex c Hc) as [_ Hr].
    cbn [map flat_map]. split.
    + constructor; [unfold is_byte; lia |].
      apply decode_pairs_bytes, all_hex_nibbles. exact Hs.
    + rewrite encode_decode_pairs; [| exact Hs |].
      * replace (hex_value c) with (16 * 0 + hex_value c) at 1 by lia.
        rewrite hex_pair_of_nibbles by lia.
        rewrite HEX_DIGITS_of_hex_value by exact Hc. reflexivity.
      * cbn [length] in Hodd. rewrite Nat.odd_succ in Hodd. exact Hodd.
  - split.
    + apply decode_pairs_bytes, all_hex_nibbles. exact Hall.
    + apply encode_decode_pairs; [exact Hall |].
      rewrite <- Nat.negb_odd, Hodd. reflexivity.
Qed.

Lemma hex_decode_nonempty (s : text) : all_hex s -> s <> [] -> hex_decode s <> [].
Proof.
  intros Hall Hne E.
  assert (H : length (hex_decode s) = ((length s + 1) / 2)%nat).
  { unfold hex_decode.
    rewrite <- pack_decode_from by (apply all_hex_nibbles; exact Hall).
    rewrite pack_length, length_map. apply half_up. }
  rewrite E in H. cbn [length] in H.
  destruct s as [| c s]; [contradiction |]. cbn [length] in H.
  assert ((1 <= (S (length s) + 1) / 2)%nat); [| lia].
  apply Nat.div_le_lower_bound; lia.
Qed.

(** X5: decoding a non-empty text of hexadecimal digits with
    [hexStringToByteArray]'s decoding and writing the bytes with [bytesToHex]
    gives, once the separating blanks are taken out, the text in upper case,
    with a leading 0 when its length was odd. *)
Theorem encoding_the_decoded_text (hexText : text) :
  all_hex hexText -> hexText <> [] ->
  exists (p : tblock) (t : text),
    bytesToHex true (hex_decode hexText) = Done (Some p) /\
    c_string p = Some t /\
    remove_separators t
    = (if Nat.odd (length hexText) then [48] else []) ++ map upper_case hexText.
Proof.
  intros Hall Hne.
  destruct (encode_hex_decode hexText Hall) as [Hbytes Henc].
  pose proof (hex_decode_nonempty hexText Hall Hne) as Hd.
  destruct (hex_decode hexText) as [| b bs] eqn:E; [contradiction |].
  exists (map Some (hex_text (b :: bs) ++ [0])), (hex_text (b :: bs)).
  split; [apply bytesToHex_spec; exact Hbytes |].
  split; [apply c_string_terminated, hex_text_nonzero; exact Hbytes |].
  rewrite remove_separators_hex_text by exact Hbytes. exact Henc.
Qed.

Lemma encoding_the_decoded_text_example :
  all_hex (_T "a0f") /\ _T "a0f" <> [] /\
  exists (p : tblock) (t : text),
    bytesToHex true (hex_decode (_T "a0f")) = Done (Some p) /\
    c_string p = Some t /\
    remove_separators t = _T "0A0F".
Proof.
  assert (H1 : all_hex (_T "a0f")) by (repeat constructor).
  assert (H2 : _T "a0f" <> []) by discriminate.
  split; [exact H1 |]. split; [exact H2 |].
  exact (encoding_the_decoded_text (_T "a0f") H1 H2).
Defined.

Lemma hex_text_injective (B1 B2 : list TOCTET) :
  Forall is_byte B1 -> Forall is_byte B2 -> hex_text B1 = hex_text B2 -> B1 = B2.
Proof.
  intros H1 H2 E.
  rewrite <- (hex_decode_flat_map_hex_pair B1 H1), <- (hex_decode_flat_map_hex_pair B2 H2).
  rewrite <- !remove_separators_hex_text by assumption. rewrite E. reflexivity.
Qed.

(** X6: [bytesToHex] gives different results for different byte
    buffers. *)
Theorem bytesToHex_injective (B1 B2 : list TOCTET) :
  Forall is_byte B1 -> Forall is_byte B2 -> B1 <> B2 ->
  bytesToHex true B1 <> bytesToHex true B2.
Proof.
  intros H1 H2 Hne E. apply Hne. clear Hne.
  destruct B1 as [| b1 B1], B2 as [| b2 B2].
  - reflexivity.
  - rewrite (bytesToHex_spec b2 B2 H2) in E. discriminate E.
  - rewrite (bytesToHex_spec b1 B1 H1) in E. discriminate E.
  - rewrite (bytesToHex_spec b1 B1 H1), (bytesToHex_spec b2 B2 H2) in E.
    injection E as E.
    apply hex_text_injective; try assumption.
    assert (Hinj : forall l1 l2 : text, map Some l1 = map Some l2 -> l1 = l2).
    { induction l1 as [| x l1 IH]; intros [| y l2] H; try discriminate H; [reflexivity |].
      injection H as -> H. f_equal. apply IH. exact H. }
    apply Hinj in E. apply app_inv_tail in E. exact E.
Qed.

Lemma bytesToHex_injective_example :
  Forall is_byte [1; 35] /\ Forall is_byte [18; 3] /\ [1; 35] <> [18; 3] /\
  bytesToHex true [1; 35] <> bytesToHex true [18; 3].
Proof.
  assert (H1 : Forall is_byte [1; 35]) by (repeat constructor; unfold is_byte; lia).
  assert (H2 : Forall is_byte [18; 3]) by (repeat constructor; unfold is_byte; lia).
  assert (H3 : [1; 35] <> [18; 3]) by discriminate.
  split; [exact H1 |]. split; [exact H2 |]. split; [exact H3 |].
  exact (bytesToHex_injective [1; 35] [18; 3] H1 H2 H3).
Defined.

Lemma _stprintf_s_fits (n : Z) (msg : text) :
  Z.of_nat (length msg) < n -> _stprintf_s n msg = Done msg.
Proof.
  intros H. unfold _stprintf_s.
  replace (Z.of_nat (length msg) <? n) with true by (symmetry; apply Z.ltb_lt; exact H).
  reflexivity.
Qed.

Lemma _ttoi_range (s : text) (errno v e : Z) :
  _ttoi s errno = (v, e) ->
  INT_MIN <= v <= INT_MAX /\ (e = errno \/ e = ERANGE).
Proof.
  unfold _ttoi. cbv zeta.
  destruct (match skip_spaces s with
            | 45 :: r => (true, r)
            | 43 :: r => (false, r)
            | _ => (false, skip_spaces s)
            end) as [negative s2].
  set (n := if negative then _ else _).
  destruct (Z.gtb_spec n INT_MAX).
  { intros [= <- <-]. unfold INT_MIN, INT_MAX. split; [lia | right; reflexivity]. }
  destruct (Z.ltb_spec n INT_MIN).
  { intros [= <- <-]. unfold INT_MIN, INT_MAX. split; [lia | right; reflexivity]. }
  intros [= <- <-]. split; [lia | left; reflexivity].
Qed.

Lemma clamp_in_range (v errno : Z) : INT_MIN <= v <= INT_MAX -> clamp v errno = (v, errno).
Proof.
  intros H. unfold clamp.
  destruct (Z.gtb_spec v INT_MAX); [lia |].
  destruct (Z.ltb_spec v INT_MIN); [lia |]. reflexivity.
Qed.

Lemma clamp_overflow (v errno : Z) :
  v < INT_MIN \/ INT_MAX < v -> exists r, clamp v errno = (r, ERANGE).
Proof.
  intros H. unfold clamp.
  destruct (Z.gtb_spec v INT_MAX); [eexists; reflexivity |].
  destruct (Z.ltb_spec v INT_MIN); [eexists; reflexivity | lia].
Qed.

Lemma decimal_alone (z : Z) (errno : Z) : _ttoi (decimal z) errno = clamp z errno.
Proof. rewrite <- (app_nil_r (decimal z)). apply _ttoi_decimal. exact I. Qed.

(** X7: [getIntegerArg] returns the number a decimal numeral stands for
    when the number fits an [int] and lies within the bounds; the error buffer
    stays empty and [errno] stays 0. *)
Theorem number_in_range_is_returned (pArgName : text)
    (v minValue maxValue errorBufferSize : Z) :
  INT_MIN <= v <= INT_MAX -> minValue <= v <= maxValue ->
  getIntegerArg pArgName (decimal v) minValue maxValue errorBufferSize 0
  = Done (mkIntegerArg v [] 0).
Proof.
  intros Hint Hrange. unfold getIntegerArg.
  rewrite decimal_alone, clamp_in_range by exact Hint. cbn [Z.eqb negb].
  destruct (Z.ltb_spec v minValue); [lia |].
  destruct (Z.gtb_spec v maxValue); [lia |]. reflexivity.
Qed.

Lemma number_in_range_is_returned_example :
  INT_MIN <= 1234567 <= INT_MAX /\ MIN_ITERATION_COUNT <= 1234567 <= MAX_ITERATION_COUNT /\
  getIntegerArg (_T "iterationCount") (_T "1234567") MIN_ITERATION_COUNT
    MAX_ITERATION_COUNT 499 0
  = Done (mkIntegerArg 1234567 [] 0).
Proof.
  assert (H1 : INT_MIN <= 1234567 <= INT_MAX) by (unfold INT_MIN, INT_MAX; lia).
  assert (H2 : MIN_ITERATION_COUNT <= 1234567 <= MAX_ITERATION_COUNT)
    by (unfold MIN_ITERATION_COUNT, MAX_ITERATION_COUNT; lia).
  split; [exact H1 |]. split; [exact H2 |].
  exact (number_in_range_is_returned (_T "iterationCount") 1234567 MIN_ITERATION_COUNT
           MAX_ITERATION_COUNT 499 H1 H2).
Defined.

(** X8: for the numeral of a number that fits an [int] and lies outside
    the bounds, [getIntegerArg] returns 0 and puts the message for the bound
    that was crossed into the error buffer: the one of the minimum below it,
    the one of the maximum above it. *)
Theorem number_out_of_range_is_rejected (pArgName : text)
    (v minValue maxValue errorBufferSize : Z) :
  INT_MIN <= v <= INT_MAX ->
  Z.of_nat (length (msg_below_minimum pArgName minValue)) < errorBufferSize ->
  Z.of_nat (length (msg_above_maximum pArgName maxValue)) < errorBufferSize ->
  v < minValue \/ maxValue < v ->
  getIntegerArg pArgName (decimal v) minValue maxValue errorBufferSize 0
  = Done (mkIntegerArg 0
            (if v <? minValue then msg_below_minimum pArgName minValue
             else msg_above_maximum pArgName maxValue) 0).
Proof.
  intros Hint Hlo Hhi Hout. unfold getIntegerArg.
  rewrite decimal_alone, clamp_in_range by exact Hint. cbn [Z.eqb negb].
  destruct (Z.ltb_spec v minValue).
  - rewrite _stprintf_s_fits by exact Hlo. reflexivity.
  - destruct (Z.gtb_spec v maxValue); [| lia].
    rewrite _stprintf_s_fits by exact Hhi. reflexivity.
Qed.

Lemma number_out_of_range_is_rejected_example :
  INT_MIN <= 9 <= INT_MAX /\
  Z.of_nat (length (msg_below_minimum (_T "hashType") MIN_HASH_TYPE)) < 499 /\
  Z.of_nat (length (msg_above_maximum (_T "hashType") MAX_HASH_TYPE)) < 499 /\
  (9 < MIN_HASH_TYPE \/ MAX_HASH_TYPE < 9) /\
  getIntegerArg (_T "hashType") (_T "9") MIN_HASH_TYPE MAX_HASH_TYPE 499 0
  = Done (mkIntegerArg 0 (msg_above_maximum (_T "hashType") 5) 0).
Proof.
  assert (H1 : INT_MIN <= 9 <= INT_MAX) by (unfold INT_MIN, INT_MAX; lia).
  assert (H2 : Z.of_nat (length (msg_below_minimum (_T "hashType") MIN_HASH_TYPE)) < 499)
    by (vm_compute; reflexivity).
  assert (H3 : Z.of_nat (length (msg_above_maximum (_T "hashType") MAX_HASH_TYPE)) < 499)
    by (vm_compute; reflexivity).
  assert (H4 : 9 < MIN_HASH_TYPE \/ MAX_HASH_TYPE < 9) by (right; reflexivity).
  split; [exact H1 |]. split; [exact H2 |]. split; [exact H3 |]. split; [exact H4 |].
  exact (number_out_of_range_is_rejected (_T "hashType") 9 MIN_HASH_TYPE MAX_HASH_TYPE 499
           H1 H2 H3 H4).
Defined.

(** X9: a numeral whose number does not fit an [int] is reported by
    [getIntegerArg] as being no integer, whatever the bounds are: the
    conversion sets [errno] to [ERANGE], and the function returns 0. *)
Theorem number_beyond_int_is_not_an_integer (pArgName : text)
    (v minValue maxValue errorBufferSize errno : Z) :
  v < INT_MIN \/ INT_MAX < v ->
  Z.of_nat (length (msg_not_an_integer pArgName)) < errorBufferSize ->
  getIntegerArg pArgName (decimal v) minValue maxValue errorBufferSize errno
  = Done (mkIntegerArg 0 (msg_not_an_integer pArgName) ERANGE).
Proof.
  intros Hv Hfit. unfold getIntegerArg. rewrite decimal_alone.
  destruct (clamp_overflow v errno Hv) as [r ->].
  change (negb (ERANGE =? 0)) with true. cbv iota.
  rewrite _stprintf_s_fits by exact Hfit. reflexivity.
Qed.

Lemma number_beyond_int_is_not_an_integer_example :
  (99999999999 < INT_MIN \/ INT_MAX < 99999999999) /\
  Z.of_nat (length (msg_not_an_integer (_T "salt"))) < 499 /\
  getIntegerArg (_T "salt") (_T "99999999999") MIN_SALT MAX_SALT 499 0
  = Done (mkIntegerArg 0 (msg_not_an_integer (_T "salt")) ERANGE).
Proof.
  assert (H1 : 99999999999 < INT_MIN \/ INT_MAX < 99999999999) by (right; reflexivity).
  assert (H2 : Z.of_nat (length (msg_not_an_integer (_T "salt"))) < 499)
    by (vm_compute; reflexivity).
  split; [exact H1 |]. split; [exact H2 |].
  exact (number_beyond_int_is_not_an_integer (_T "salt") 99999999999 MIN_SALT MAX_SALT 499 0
           H1 H2).
Defined.

(** X11: [getIntegerArg] never clears [errno]. Called while [errno] is
    set, it reports every argument, a valid numeral included, as being no
    integer and returns 0. *)
Theorem errno_is_never_cleared (pArgName pArg : text)
    (minValue maxValue errorBufferSize errno : Z) :
  errno <> 0 ->
  Z.of_nat (length (msg_not_an_integer pArgName)) < errorBufferSize ->
  exists errno' : Z,
    errno' <> 0 /\
    getIntegerArg pArgName pArg minValue maxValue errorBufferSize errno
    = Done (mkIntegerArg 0 (msg_not_an_integer pArgName) errno').
Proof.
  intros Herrno Hfit. unfold getIntegerArg.
  destruct (_ttoi pArg errno) as [v e] eqn:E.
  destruct (_ttoi_range _ _ _ _ E) as [_ He].
  assert (Hne : e <> 0) by (destruct He as [-> | ->]; [exact Herrno | discriminate]).
  exists e. split; [exact Hne |].
  apply Z.eqb_neq in Hne. rewrite Hne. cbn [negb].
  rewrite _stprintf_s_fits by exact Hfit. reflexivity.
Qed.

Lemma errno_is_never_cleared_example :
  ERANGE <> 0 /\
  Z.of_nat (length (msg_not_an_integer (_T "iterationCount"))) < 499 /\
  exists errno' : Z,
    errno' <> 0 /\
    getIntegerArg (_T "iterationCount") (_T "1000") MIN_ITERATION_COUNT MAX_ITERATION_COUNT
      499 ERANGE
    = Done (mkIntegerArg 0 (msg_not_an_integer (_T "iterationCount")) errno').
Proof.
  assert (H1 : ERANGE <> 0) by discriminate.
  assert (H2 : Z.of_nat (length (msg_not_an_integer (_T "iterationCount"))) < 499)
    by (vm_compute; reflexivity).
  split; [exact H1 |]. split; [exact H2 |].
  exact (errno_is_never_cleared (_T "iterationCount") (_T "1000") MIN_ITERATION_COUNT
           MAX_ITERATION_COUNT 499 ERANGE H1 H2).
Defined.

(** X12: what [getIntegerArg] leaves behind. Either the error buffer is
    empty, [errno] was and is 0, and the result lies within the bounds and
    within [int]; or the result is 0 and the error buffer holds one of the three
    messages of the function. The only way it ends the process is the invalid
    parameter handler of [_stprintf_s]. *)
Theorem getIntegerArg_result (pArgName pArg : text)
    (minValue maxValue errorBufferSize errno : Z) :
  match getIntegerArg pArgName pArg minValue maxValue errorBufferSize errno with
  | Done a =>
      (ia_errorBuffer a = [] /\ errno = 0 /\ ia_errno a = 0 /\
       minValue <= ia_result a <= maxValue /\ INT_MIN <= ia_result a <= INT_MAX)
      \/
      (ia_result a = 0 /\
       (ia_errorBuffer a = msg_not_an_integer pArgName \/
        ia_errorBuffer a = msg_below_minimum pArgName minValue \/
        ia_errorBuffer a = msg_above_maximum pArgName maxValue))
  | Abort f => f = InvalidParameter
  end.
Proof.
  unfold getIntegerArg.
  destruct (_ttoi pArg errno) as [v e] eqn:E.
  destruct (_ttoi_range _ _ _ _ E) as [Hv He].
  destruct (Z.eqb_spec e 0) as [He0 | He0]; cbn [negb].
  - destruct (Z.ltb_spec v minValue).
    { unfold _stprintf_s. destruct (_ <? _); cbn [bind]; [| reflexivity].
      right. split; [reflexivity |]. right. left. reflexivity. }
    destruct (Z.gtb_spec v maxValue).
    { unfold _stprintf_s. destruct (_ <? _); cbn [bind]; [| reflexivity].
      right. split; [reflexivity |]. right. right. reflexivity. }
    left. cbn [ia_errorBuffer ia_errno ia_result].
    split; [reflexivity |].
    split; [destruct He as [<- | ->]; [exact He0 | discriminate He0] |].
    split; [exact He0 |]. split; [lia | exact Hv].
  - unfold _stprintf_s. destruct (_ <? _); cbn [bind]; [| reflexivity].
    right. split; [reflexivity |]. left. reflexivity.
Qed.

Lemma error_buffer_empty (errorBuffer : text) :
  IS_ERROR_MSG_SET errorBuffer = false -> errorBuffer = [].
Proof. destruct errorBuffer; [reflexivity | discriminate]. Qed.

Lemma argc_below_5 (argv : list text) :
  (length argv < 5)%nat -> (Z.of_nat (length argv) >=? 5) = false.
Proof. intros H. rewrite Z.geb_leb. apply Z.leb_gt. lia. Qed.

Lemma usage_fits (pf : Platform) :
  copy_all ((499 + 1) * sizeof_TCHAR pf) usage = Done usage.
Proof. unfold sizeof_TCHAR. destruct (UNICODE pf); vm_compute; reflexivity. Qed.

(** X13: with fewer than four arguments [_tmain] writes the usage text to
    the error stream, nothing to the output stream, derives no key, frees
    nothing and returns 1, on every platform. *)
Theorem too_few_arguments (pf : Platform) (argv : list text) :
  (length argv < 5)%nat -> _tmain pf argv = Done (mkRun 1 [] usage None []).
Proof.
  intros H. unfold _tmain. cbv zeta. rewrite (argc_below_5 argv H).
  rewrite usage_fits. reflexivity.
Qed.

Lemma too_few_arguments_example :
  (length [_T "pbkdf2"; _T "1"; _T "0"; _T "1"] < 5)%nat /\
  _tmain (example_platform every_allocation 0 0 0) [_T "pbkdf2"; _T "1"; _T "0"; _T "1"]
  = Done (mkRun 1 [] usage None []).
Proof.
  assert (H : (length [_T "pbkdf2"; _T "1"; _T "0"; _T "1"] < 5)%nat) by (cbn; lia).
  split; [exact H |].
  exact (too_few_arguments (example_platform every_allocation 0 0 0)
           [_T "pbkdf2"; _T "1"; _T "0"; _T "1"] H).
Defined.

(** X14: only the presence of a fifth argument counts. Its text, any
    further arguments and the program name have no influence on the run. *)
Theorem fifth_argument_is_a_switch (pf : Platform)
    (program hashType salt iterationCount password : text)
    (program' fifth fifth' : text) (more more' : list text) :
  _tmain pf (program :: hashType :: salt :: iterationCount :: password :: fifth :: more)
  = _tmain pf (program' :: hashType :: salt :: iterationCount :: password :: fifth' :: more').
Proof.
  unfold _tmain. cbv zeta. cbn [length nth].
  rewrite !argc_at_least_5, !argc_at_least_6. reflexivity.
Qed.

Lemma getIntegerArg_abort (pArgName pArg : text)
    (minValue maxValue errorBufferSize errno : Z) (f : Fault) :
  getIntegerArg pArgName pArg minValue maxValue errorBufferSize errno = Abort f ->
  f = InvalidParameter.
Proof.
  unfold getIntegerArg, _stprintf_s. destruct (_ttoi pArg errno) as [v e].
  repeat match goal with
         | |- context [if ?b then _ else _] => destruct b
         end; cbn [bind]; congruence.
Qed.

Lemma selected_algorithm_in_table (h : Z) :
  1 <= h <= 5 ->
  In (selected_algorithm (h - 1))
    [BCRYPT_SHA1_ALGORITHM; BCRYPT_SHA256_ALGORITHM; BCRYPT_SHA384_ALGORITHM;
     BCRYPT_SHA512_ALGORITHM].
Proof.
  intros H.
  assert (Hc : h = 1 \/ h = 2 \/ h = 3 \/ h = 4 \/ h = 5) by lia.
  destruct Hc as [-> | [-> | [-> | [-> | ->]]]]; cbn; tauto.
Qed.

(** X15: whenever [_tmain] gets as far as the derivation, the hash type
    it read lies in 1..5, so that the index into [HASH_ALGORITHM] is inside the
    table and the algorithm is one of SHA-1, SHA-256, SHA-384 and SHA-512, and
    the iteration count lies in 1..5000000 and is passed on unchanged by the
    conversion to [ULONGLONG]. *)
Theorem derivation_parameters_in_range (pf : Platform) (argv : list text) (r : Run)
    (d : DerivationInput) :
  _tmain pf argv = Done r -> derivation r = Some d ->
  exists h : Z,
    1 <= h <= 5 /\
    getIntegerArg (_T "hashType") (nth 1 argv []) MIN_HASH_TYPE MAX_HASH_TYPE 499 0
    = Done (mkIntegerArg h [] 0) /\
    di_pHashType d = nth (Z.to_nat (h - 1)) HASH_ALGORITHM [] /\
    (Z.to_nat (h - 1) < length HASH_ALGORITHM)%nat /\
    In (di_pHashType d)
      [BCRYPT_SHA1_ALGORITHM; BCRYPT_SHA256_ALGORITHM; BCRYPT_SHA384_ALGORITHM;
       BCRYPT_SHA512_ALGORITHM] /\
    getIntegerArg (_T "iterationCount") (nth 3 argv []) MIN_ITERATION_COUNT
      MAX_ITERATION_COUNT 499 0
    = Done (mkIntegerArg (di_iterationCount d) [] 0) /\
    1 <= di_iterationCount d <= 5000000 /\
    ULONGLONG (di_iterationCount d) = di_iterationCount d.
Proof.
  intros Hrun Hd.
  unfold _tmain in Hrun. cbv zeta in Hrun.
  destruct (Z.of_nat (length argv) >=? 5).
  2:{ case_bind Hrun. unfold Exit in Hrun. injection Hrun as <-. discriminate Hd. }
  case_bind Hrun. rename a into a1, E into E1.
  destruct (IS_ERROR_MSG_SET (ia_errorBuffer a1)) eqn:He1.
  { unfold Exit in Hrun. injection Hrun as <-. discriminate Hd. }
  destruct (getIntegerArg_accepts _ _ _ _ _ _ E1 He1) as [Herrno1 Hr1].
  case_bind Hrun. rename a into s, E into Es.
  destruct (IS_ERROR_MSG_SET (salt_errorBuffer s)) eqn:Hes.
  { unfold Exit in Hrun. injection Hrun as <-. discriminate Hd. }
  assert (Hs0 : salt_errno s = 0).
  { unfold get_salt, safeHexStringToByteArray in Es.
    destruct (Z.of_nat (length argv) >=? 6).
    - case_bind Es. injection Es as <-. exact Herrno1.
    - rewrite Herrno1 in Es. case_bind Es. injection Es as <-.
      cbn [salt_errorBuffer salt_errno] in *.
      apply (getIntegerArg_accepts _ _ _ _ _ _ E Hes). }
  rewrite Hs0 in Hrun.
  case_bind Hrun. rename a into a3, E into E3.
  destruct (IS_ERROR_MSG_SET (ia_errorBuffer a3)) eqn:He3.
  { unfold Exit in Hrun. injection Hrun as <-. discriminate Hd. }
  destruct (getIntegerArg_accepts _ _ _ _ _ _ E3 He3) as [Herrno3 Hr3].
  assert (Hd' : d = mkDerivationInput (selected_algorithm (ia_result a1 - 1))
                      (di_pSalt d) (di_saltSize d) (ia_result a3)
                      (di_password d) (di_passwordSize d)).
  { destruct (Z.of_nat (length argv) >=? 6).
    - case_bind Hrun. destruct (negb (IS_ERROR_MSG_SET (enc_errorBuffer a))).
      + apply derive_and_print_derivation in Hrun. rewrite Hrun in Hd.
        injection Hd as <-. reflexivity.
      + unfold Exit in Hrun. injection Hrun as <-. discriminate Hd.
    - apply derive_and_print_derivation in Hrun. rewrite Hrun in Hd.
      injection Hd as <-. reflexivity. }
  unfold MIN_HASH_TYPE, MAX_HASH_TYPE in Hr1.
  unfold MIN_ITERATION_COUNT, MAX_ITERATION_COUNT in Hr3.
  apply error_buffer_empty in He1, He3.
  exists (ia_result a1).
  split; [exact Hr1 |].
  split; [destruct a1; cbn in *; subst; reflexivity |].
  rewrite Hd'. cbn [di_pHashType di_iterationCount].
  split; [reflexivity |].
  split; [change (length HASH_ALGORITHM) with 5%nat; lia |].
  split; [apply selected_algorithm_in_table; exact Hr1 |].
  split; [destruct a3; cbn in *; subst; reflexivity |].
  split; [exact Hr3 |].
  unfold ULONGLONG. apply Z.mod_small. lia.
Qed.

Lemma derivation_parameters_in_range_example :
  exists (r : Run) (d : DerivationInput),
    _tmain (example_platform every_allocation 0 0 0)
      [_T "pbkdf2"; _T "5"; _T "0"; _T "5000000"; _T "pw"] = Done r /\
    derivation r = Some d /\
    di_pHashType d = BCRYPT_SHA512_ALGORITHM /\ di_iterationCount d = 5000000.
Proof.
  set (pf := example_platform every_allocation 0 0 0).
  set (argv := [_T "pbkdf2"; _T "5"; _T "0"; _T "5000000"; _T "pw"]).
  destruct (_tmain pf argv) as [r |] eqn:Hrun; [| vm_compute in Hrun; discriminate Hrun].
  destruct (derivation r) as [d |] eqn:Hd.
  2:{ vm_compute in Hrun. injection Hrun as <-. discriminate Hd. }
  exists r, d. split; [reflexivity |]. split; [exact Hd |].
  destruct (derivation_parameters_in_range pf argv r d Hrun Hd)
    as (h & _ & Hh & Halg & _ & _ & Hit & _).
  vm_compute in Hh. injection Hh as <-.
  vm_compute in Hit. injection Hit as Hit.
  split; [exact Halg | symmetry; exact Hit].
Defined.

Lemma ULONG_low_bytes (v h : Z) : ULONG (v - ULONG v + ULONG h) = ULONG h.
Proof.
  unfold ULONG.
  replace (v - v mod 2 ^ 32) with (v / 2 ^ 32 * 2 ^ 32)
    by (pose proof (Z.div_mod v (2 ^ 32)); lia).
  rewrite Z.add_comm, Z_mod_plus_full. apply Z.mod_mod. lia.
Qed.

Lemma calculatePBKDF2_cases (pf : Platform) (ppDerivedKey : option block)
    (derivedKeySize : Z) (pHashType : text) (pSalt : option block) (saltSize : Z)
    (iterationCount : Z) (password : option block) (passwordSize : Z)
    (errorBufferSize : Z) :
  match calculatePBKDF2 pf ppDerivedKey derivedKeySize pHashType pSalt saltSize
          iterationCount password passwordSize errorBufferSize with
  | Done dk =>
      IS_ERROR_MSG_SET (dk_errorBuffer dk)
      = negb (derivation_succeeds pf pHashType pSalt saltSize iterationCount
                password passwordSize) /\
      (IS_ERROR_MSG_SET (dk_errorBuffer dk) = false ->
       dk_size dk
       = derivedKeySize - ULONG derivedKeySize + ULONG (snd (BCryptGetProperty pf pHashType)) /\
       dk_key dk
       = Some (snd (BCryptDeriveKeyPBKDF2 pf pHashType
                      (take (Z.to_nat (ULONG passwordSize)) <$> password)
                      (take (Z.to_nat (ULONG saltSize)) <$> pSalt)
                      (ULONGLONG iterationCount)
                      (ULONG (snd (BCryptGetProperty pf pHashType))))))
  | Abort f => f = InvalidParameter
  end.
Proof.
  unfold calculatePBKDF2, derivation_succeeds, _stprintf_s.
  destruct (NT_SUCCESS (BCryptOpenAlgorithmProvider pf pHashType)); cbn [andb].
  2:{ destruct (_ <? _); cbn [bind]; [| reflexivity]. split; [reflexivity | discriminate]. }
  destruct (BCryptGetProperty pf pHashType) as [status hashLength]. cbn [fst snd].
  rewrite ULONG_low_bytes.
  destruct (NT_SUCCESS status); cbn [andb].
  2:{ destruct (_ <? _); cbn [bind]; [| reflexivity]. split; [reflexivity | discriminate]. }
  destruct (malloc pf AllocDerivedKey); cbn [andb].
  2:{ destruct (_ <? _); cbn [bind]; [| reflexivity]. split; [reflexivity | discriminate]. }
  destruct (BCryptDeriveKeyPBKDF2 pf pHashType _ _ _ _) as [status' key]. cbn [fst snd].
  destruct (NT_SUCCESS status'); cbn [negb].
  - split; [reflexivity |]. intros _. split; reflexivity.
  - destruct (_ <? _); cbn [bind]; [| reflexivity]. split; [reflexivity | discriminate].
Qed.



Lemma read_block_written (bs : list TOCTET) : read_block (map Some bs) = Done bs.
Proof.
  induction bs as [| b bs IH]; [reflexivity |].
  cbn [map read_block]. rewrite IH. reflexivity.
Qed.

Lemma read_pointer_whole (bs : list TOCTET) :
  read_pointer (Some (map Some bs)) (Z.of_nat (length bs)) = Done bs.
Proof.
  unfold read_pointer. rewrite Nat2Z.id.
  rewrite firstn_all2 by (rewrite length_map; lia). apply read_block_written.
Qed.

Lemma bytesToHex_abort (malloc_ok : bool) (bytes : list TOCTET) (f : Fault) :
  bytesToHex malloc_ok bytes = Abort f -> f = OutOfBounds /\ bytes = [] /\ malloc_ok = true.
Proof.
  destruct malloc_ok; [| discriminate].
  destruct bytes as [| b bs].
  - intros [= <-]. repeat split.
  - unfold bytesToHex. cbv zeta.
    pose proof (bytesToHex_loop_spec (b :: bs) [] 0) as L.
    cbn [map app length] in L. change (Z.of_nat 0) with 0 in L.
    unfold uninitialised.
    replace (Z.to_nat (Z.of_nat (length (b :: bs)) * 3)) with (3 * length (b :: bs) + 0)%nat
      by lia.
    cbn [length] in *. rewrite L. cbn [bind]. rewrite app_nil_r.
    assert (Hs : exists w, flat_map (fun b0 => code_pair b0 ++ [32]) (b :: bs) = w ++ [32]
                           /\ Z.of_nat (length w) = 0 + 3 * Z.of_nat (S (length bs)) - 1).
    { clear L. revert b. induction bs as [| b' bs IH]; intros b.
      - exists (code_pair b). split; [reflexivity |]. reflexivity.
      - destruct (IH b') as (w & Hw & Hl).
        exists (code_pair b ++ [32] ++ w). split.
        + change (flat_map (fun b0 => code_pair b0 ++ [32]) (b :: b' :: bs))
            with ((code_pair b ++ [32]) ++ flat_map (fun b0 => code_pair b0 ++ [32]) (b' :: bs)).
          rewrite Hw. rewrite <- !app_assoc. reflexivity.
        + rewrite !length_app, !Nat2Z.inj_add, Hl. cbn [length code_pair]. lia. }
    destruct Hs as (w & -> & Hl). rewrite <- Hl. rewrite store_last. discriminate.
Qed.

Lemma bytesToHex_returns_a_block (bytes : list TOCTET) (o : option tblock) :
  bytesToHex true bytes = Done o -> exists p : tblock, o = Some p.
Proof.
  unfold bytesToHex. cbv zeta. intros H.
  case_bind H. destruct a as [pResult pActResult]. case_bind H.
  injection H as <-. eexists. reflexivity.
Qed.

Lemma print_string_done (p : tblock) (t : text) :
  print_string (Some p) = Done t -> c_string p = Some t.
Proof. unfold print_string. destruct (c_string p); congruence. Qed.

Lemma derive_and_print_cases (pf : Platform) (doItRight : bool) (hashType : Z)
    (s : Salt) (iterationCount : Z) (password : text) (passwordBytes : option block)
    (passwordBytesSize : Z) (releasePassword : option block) (errorBufferSize : Z)
    (r : Run) :
  derive_and_print pf doItRight hashType s iterationCount password passwordBytes
    passwordBytesSize releasePassword errorBufferSize = Done r ->
  exists dk : DerivedKey,
    calculatePBKDF2 pf None 0 (selected_algorithm hashType) (salt_array s)
      (salt_arraySize s) iterationCount passwordBytes passwordBytesSize errorBufferSize
    = Done dk /\
    freed r = omap id [releasePassword; salt_release s; dk_key dk] /\
    ((IS_ERROR_MSG_SET (dk_errorBuffer dk) = true /\
      returnValue r = 2 /\ stdout r = [] /\ stderr r = [dk_errorBuffer dk])
     \/
     (IS_ERROR_MSG_SET (dk_errorBuffer dk) = false /\ malloc pf AllocSaltText = false /\
      returnValue r = 3 /\ stdout r = [] /\
      stderr r = [_T "Could not allocate salt text array" ++ [newline]])
     \/
     (IS_ERROR_MSG_SET (dk_errorBuffer dk) = false /\ malloc pf AllocSaltText = true /\
      returnValue r = 0 /\ stderr r = [] /\
      exists saltText keyText : text,
        stdout r = [msg_result (selected_algorithm hashType) saltText iterationCount
                      password keyText;
                    msg_duration (duration_ms pf)] /\
        salt_text_of pf doItRight s saltText /\ key_text_of pf dk keyText)).
Proof.
  unfold derive_and_print, Exit. cbv zeta. intros H.
  case_bind H. rename a into dk. exists dk. split; [reflexivity |].
  destruct (IS_ERROR_MSG_SET (dk_errorBuffer dk)) eqn:Herr; cbn [negb] in H.
  { injection H as <-. split; [reflexivity |]. left. repeat split. }
  case_bind H. rename a into saltText, E0 into Esalt.
  destruct saltText as [saltText |].
  - (* the salt text was allocated *)
    assert (Hsalt : malloc pf AllocSaltText = true /\ salt_text_of pf doItRight s saltText).
    { unfold salt_text_of. destruct doItRight.
      - destruct (malloc pf AllocSaltText) eqn:Hm.
        + split; [reflexivity |].
          case_bind Esalt. rename a into bytes. case_bind Esalt. rename a into o.
          destruct (bytesToHex_returns_a_block _ _ E1) as [p ->].
          case_bind Esalt. injection Esalt as <-.
          exists bytes, p.
          split; [first [eassumption | reflexivity] |].
          split; [first [eassumption | reflexivity] |].
          apply print_string_done. exact E2.
        + cbn [bind bytesToHex] in Esalt. discriminate Esalt.
      - destruct (malloc pf AllocSaltText); [| discriminate Esalt].
        injection Esalt as <-. split; reflexivity. }
    destruct Hsalt as [Hm Hsalt].
    case_bind H. rename a into key, E0 into Ekey.
    case_bind H. rename a into o, E0 into Ehex.
    case_bind H. rename a into keyText, E0 into Eprint.
    case_bind H. case_bind H. injection H as <-.
    apply _stprintf_s_done in E0, E1. subst.
    split; [reflexivity |]. right. right.
    split; [reflexivity |]. split; [exact Hm |].
    split; [reflexivity |]. split; [reflexivity |].
    exists saltText, keyText. split; [reflexivity |]. split; [exact Hsalt |].
    unfold key_text_of. destruct (malloc pf AllocKeyText).
    + destruct (bytesToHex_returns_a_block _ _ Ehex) as [p ->].
      exists key, p.
      split; [first [eassumption | reflexivity] |].
      split; [first [eassumption | reflexivity] |].
      apply print_string_done. exact Eprint.
    + cbn [bytesToHex] in Ehex. injection Ehex as <-.
      cbn [print_string] in Eprint. injection Eprint as <-. reflexivity.
  - (* it was not *)
    assert (Hm : malloc pf AllocSaltText = false).
    { destruct doItRight.
      - destruct (malloc pf AllocSaltText); [| reflexivity].
        case_bind Esalt. case_bind Esalt.
        destruct (bytesToHex_returns_a_block _ _ E1) as [p ->].
        case_bind Esalt. discriminate Esalt.
      - destruct (malloc pf AllocSaltText); [discriminate Esalt | reflexivity]. }
    case_bind H. injection H as <-.
    unfold _tcscpy_s in E0. destruct (_ <? _); [| discriminate E0]. injection E0 as <-.
    split; [reflexivity |]. right. left. repeat split. exact Hm.
Qed.

Lemma getPasswordUTF8Encoding_fails (pf : Platform) (password : text)
    (errorBufferSize : Z) (e : Encoding) :
  getPasswordUTF8Encoding pf password None 0 errorBufferSize = Done e ->
  IS_ERROR_MSG_SET (enc_errorBuffer e) = true ->
  password_allocation_failed pf /\ enc_bytes e = None.
Proof.
  unfold getPasswordUTF8Encoding, getPasswordUTF16Encoding, password_allocation_failed.
  destruct (UNICODE pf).
  - destruct (malloc pf AllocPasswordUTF8).
    + intros [= <-]. discriminate.
    + intros H _. case_bind H. injection H as <-. split; [left |]; reflexivity.
  - destruct (malloc pf AllocPasswordUTF16); cbn [bind].
    + destruct (malloc pf AllocPasswordUTF8).
      * intros [= <-]. discriminate.
      * intros H _. case_bind H. injection H as <-. split; [left |]; reflexivity.
    + intros H _.
      destruct (_stprintf_s errorBufferSize _) eqn:E in H; cbn [bind] in H;
        [| discriminate H].
      injection H as <-. split; [right; split |]; reflexivity.
Qed.

Lemma argc_5_or_more (argv : list text) :
  (Z.of_nat (length argv) >=? 5) = true -> (5 <= length argv)%nat.
Proof. rewrite Z.geb_leb. intros H. apply Z.leb_le in H. lia. Qed.

Lemma _tmain_cases (pf : Platform) (argv : list text) (r : Run) :
  _tmain pf argv = Done r ->
  ((length argv < 5)%nat /\ r = mkRun 1 [] usage None [])
  \/
  ((5 <= length argv)%nat /\ returnValue r = 2 /\ stdout r = [] /\ derivation r = None /\
   exists msg : text, msg <> [] /\ stderr r = [msg])
  \/
  ((6 <= length argv)%nat /\ returnValue r = 3 /\ stdout r = [] /\ derivation r = None /\
   (exists msg : text, msg <> [] /\ stderr r = [msg]) /\ password_allocation_failed pf)
  \/
  ((5 <= length argv)%nat /\
   exists (hashType : Z) (s : Salt) (iterationCount : Z)
          (passwordBytes : option block) (passwordBytesSize : Z)
          (releasePassword : option block),
     salt_of (Z.of_nat (length argv) >=? 6) (nth 2 argv []) s /\
     password_of pf (Z.of_nat (length argv) >=? 6) (nth 4 argv []) passwordBytes
       passwordBytesSize releasePassword /\
     derive_and_print pf (Z.of_nat (length argv) >=? 6) hashType s iterationCount
       (nth 4 argv []) passwordBytes passwordBytesSize releasePassword 499 = Done r).
Proof.
  intros Hrun. unfold _tmain in Hrun. cbv zeta in Hrun.
  destruct (Z.of_nat (length argv) >=? 5) eqn:Hargc.
  2:{ left. rewrite usage_fits in Hrun. cbn [bind] in Hrun. unfold Exit in Hrun.
      injection Hrun as <-. split; [| reflexivity].
      rewrite Z.geb_leb in Hargc. apply Z.leb_gt in Hargc. lia. }
  apply argc_5_or_more in Hargc. right.
  assert (Hmsg : forall b : text, IS_ERROR_MSG_SET b = true -> b <> [])
    by (intros b Hb ->; discriminate Hb).
  case_bind Hrun. rename a into a1, E into E1.
  destruct (IS_ERROR_MSG_SET (ia_errorBuffer a1)) eqn:He1.
  { left. unfold Exit in Hrun. injection Hrun as <-. cbn.
    repeat split; try assumption. eexists. split; [apply Hmsg; exact He1 | reflexivity]. }
  destruct (getIntegerArg_accepts _ _ _ _ _ _ E1 He1) as [Herrno1 _].
  rewrite Herrno1 in Hrun.
  case_bind Hrun. rename a into s, E into Es.
  destruct (IS_ERROR_MSG_SET (salt_errorBuffer s)) eqn:Hes.
  { left. unfold Exit in Hrun. injection Hrun as <-. cbn.
    repeat split; try assumption. eexists. split; [apply Hmsg; exact Hes | reflexivity]. }
  assert (Hsalt : salt_of (Z.of_nat (length argv) >=? 6) (nth 2 argv []) s /\ salt_errno s = 0).
  { unfold get_salt, safeHexStringToByteArray, salt_of in *.
    destruct (Z.of_nat (length argv) >=? 6).
    - case_bind Es. injection Es as <-. cbn [salt_errorBuffer] in Hes.
      destruct (hexStringToByteArray_accepts _ _ _ _ _ E Hes) as [Hall ->].
      cbn. repeat split. exact Hall.
    - case_bind Es. injection Es as <-. cbn [salt_errorBuffer] in Hes.
      destruct (getIntegerArg_accepts _ _ _ _ _ _ E Hes) as [He0 _].
      split; [| exact He0]. exists a. cbn.
      split; [reflexivity |]. split; [apply error_buffer_empty; exact Hes |].
      split; reflexivity. }
  destruct Hsalt as [Hsalt Hs0]. rewrite Hs0 in Hrun.
  case_bind Hrun. rename a into a3, E into E3.
  destruct (IS_ERROR_MSG_SET (ia_errorBuffer a3)) eqn:He3.
  { left. unfold Exit in Hrun. injection Hrun as <-. cbn.
    repeat split; try assumption. eexists. split; [apply Hmsg; exact He3 | reflexivity]. }
  destruct (Z.of_nat (length argv) >=? 6) eqn:Hright.
  - case_bind Hrun. rename a into e, E into Ee.
    destruct (IS_ERROR_MSG_SET (enc_errorBuffer e)) eqn:Hee; cbn [negb] in Hrun.
    + right. left. unfold Exit in Hrun. injection Hrun as <-. cbn.
      destruct (getPasswordUTF8Encoding_fails _ _ _ _ Ee Hee) as [Hfail _].
      rewrite Z.geb_leb in Hright. apply Z.leb_le in Hright.
      split; [lia |]. repeat split; try assumption.
      eexists. split; [apply Hmsg; exact Hee | reflexivity].
    + right. right. split; [exact Hargc |]. do 6 eexists.
      split; [exact Hsalt |]. split; [| exact Hrun].
      destruct (getPasswordUTF8Encoding_accepts _ _ _ _ Ee Hee) as [Hb Hn].
      unfold password_of. rewrite Hb, Hn. repeat split.
  - right. right. split; [exact Hargc |]. do 6 eexists.
    split; [exact Hsalt |]. split; [| exact Hrun].
    unfold password_of. repeat split.
Qed.

(** X17: the three ways a run of [_tmain] returns. With exit code 0 it
    had at least four arguments, derived a key, wrote two lines to the output
    stream and nothing to the error stream. With exit code 1 it had fewer than
    four arguments and wrote the usage text to the error stream. With exit code
    2 or 3 it wrote nothing to the output stream and one non-empty message to
    the error stream. There is no other exit code. *)
Theorem results_and_errors_never_mix (pf : Platform) (argv : list text) (r : Run) :
  _tmain pf argv = Done r ->
  (returnValue r = 0 /\ (5 <= length argv)%nat /\ stderr r = [] /\
   length (stdout r) = 2%nat /\ derivation r <> None)
  \/
  (returnValue r = 1 /\ (length argv < 5)%nat /\ stdout r = [] /\ stderr r = usage /\
   derivation r = None /\ freed r = [])
  \/
  ((returnValue r = 2 \/ returnValue r = 3) /\ (5 <= length argv)%nat /\
   stdout r = [] /\ exists msg : text, msg <> [] /\ stderr r = [msg]).
Proof.
  intros Hrun.
  destruct (_tmain_cases pf argv r Hrun)
    as [[Hlen ->] | [(Hlen & H2 & Ho & Hd & Hm) | [(Hlen & H3 & Ho & Hd & Hm & _) | (Hlen & H)]]].
  - right. left. repeat split. exact Hlen.
  - right. right. split; [left; exact H2 |]. repeat split; assumption.
  - right. right. split; [right; exact H3 |]. split; [lia |]. split; assumption.
  - destruct H as (h & s & it & pb & ps & rel & _ & _ & H).
    pose proof (derive_and_print_derivation _ _ _ _ _ _ _ _ _ _ _ H) as Hd.
    destruct (derive_and_print_cases _ _ _ _ _ _ _ _ _ _ _ H)
      as (dk & _ & _ & [(Herr & H2 & Ho & He) | [(_ & _ & H3 & Ho & He) | (_ & _ & H0 & He & Hout)]]).
    + right. right. split; [left; exact H2 |]. split; [exact Hlen |]. split; [exact Ho |].
      exists (dk_errorBuffer dk). split; [| exact He]. intros E. rewrite E in Herr. discriminate.
    + right. right. split; [right; exact H3 |]. split; [exact Hlen |]. split; [exact Ho |].
      eexists. split; [| exact He]. discriminate.
    + left. destruct Hout as (saltText & keyText & Hout & _).
      split; [exact H0 |]. split; [exact Hlen |]. split; [exact He |].
      split; [rewrite Hout; reflexivity |]. rewrite Hd. discriminate.
Qed.

(** X18: exit code 3 has two causes only: a password buffer could not be
    allocated in a run with the fifth argument, before any derivation; or the
    derivation was done and the text of the salt could not be allocated. *)
Theorem exit_code_3_is_an_allocation_failure (pf : Platform) (argv : list text) (r : Run) :
  _tmain pf argv = Done r -> returnValue r = 3 ->
  ((6 <= length argv)%nat /\ derivation r = None /\ password_allocation_failed pf)
  \/
  (derivation r <> None /\ malloc pf AllocSaltText = false /\
   stderr r = [_T "Could not allocate salt text array" ++ [newline]]).
Proof.
  intros Hrun H3.
  destruct (_tmain_cases pf argv r Hrun)
    as [[Hlen ->] | [(Hlen & H2 & _) | [(Hlen & _ & _ & Hd & _ & Hf) | (Hlen & H)]]].
  - discriminate H3.
  - rewrite H2 in H3. discriminate H3.
  - left. repeat split; assumption.
  - destruct H as (h & s & it & pb & ps & rel & _ & _ & H).
    pose proof (derive_and_print_derivation _ _ _ _ _ _ _ _ _ _ _ H) as Hd.
    destruct (derive_and_print_cases _ _ _ _ _ _ _ _ _ _ _ H)
      as (dk & _ & _ & [(_ & H2 & _) | [(_ & Hm & _ & _ & He) | (_ & _ & H0 & _)]]).
    + rewrite H2 in H3. discriminate H3.
    + right. split; [rewrite Hd; discriminate |]. split; assumption.
    + rewrite H0 in H3. discriminate H3.
Qed.

Lemma salt_text_of_hex (pf : Platform) (saltArg : text) (s : Salt) (saltText : text) :
  salt_of true saltArg s -> salt_text_of pf true s saltText ->
  saltArg <> [] /\ saltText = hex_text (hex_decode saltArg).
Proof.
  intros (Hall & Harr & Hsize & _) (bytes & p & Hread & Hhex & Hstr).
  rewrite Harr, Hsize, read_pointer_whole in Hread. injection Hread as <-.
  destruct (encode_hex_decode saltArg Hall) as [Hbytes _].
  destruct (hex_decode saltArg) as [| b bs] eqn:Hd.
  - discriminate Hhex.
  - rewrite (bytesToHex_spec b bs Hbytes) in Hhex.
    assert (Hp : p = map Some (hex_text (b :: bs) ++ [0])) by congruence.
    rewrite Hp, c_string_terminated in Hstr by (apply hex_text_nonzero; exact Hbytes).
    split; [intros ->; discriminate Hd | congruence].
Qed.

(** X19: the salt in the output of a successful run. With the fifth
    argument the salt argument is a non-empty text of hexadecimal digits, and
    the output shows its bytes as upper-case pairs of digits separated by
    blanks; without, it shows the decimal numeral of the integer that was read
    from the argument. The password is shown as it was given. *)
Theorem successful_run_prints_the_salt (pf : Platform) (argv : list text) (r : Run) :
  _tmain pf argv = Done r -> returnValue r = 0 ->
  exists (alg saltText : text) (iterationCount : Z) (keyText : text),
    stdout r = [msg_result alg saltText iterationCount (nth 4 argv []) keyText;
                msg_duration (duration_ms pf)] /\
    if Z.of_nat (length argv) >=? 6 then
      all_hex (nth 2 argv []) /\ nth 2 argv [] <> [] /\
      saltText = hex_text (hex_decode (nth 2 argv []))
    else
      exists a : IntegerArg,
        getIntegerArg (_T "salt") (nth 2 argv []) MIN_SALT MAX_SALT 499 0 = Done a /\
        ia_errorBuffer a = [] /\ saltText = decimal (ia_result a).
Proof.
  intros Hrun H0.
  destruct (_tmain_cases pf argv r Hrun)
    as [[Hlen ->] | [(Hlen & H2 & _) | [(Hlen & H3 & _) | (Hlen & H)]]].
  - discriminate H0.
  - rewrite H2 in H0. discriminate H0.
  - rewrite H3 in H0. discriminate H0.
  - destruct H as (h & s & it & pb & ps & rel & Hsalt & _ & H).
    destruct (derive_and_print_cases _ _ _ _ _ _ _ _ _ _ _ H)
      as (dk & _ & _ & [(_ & H2 & _) | [(_ & _ & H3 & _) | (_ & _ & _ & _ & Hout)]]).
    + rewrite H2 in H0. discriminate H0.
    + rewrite H3 in H0. discriminate H0.
    + destruct Hout as (saltText & keyText & Hout & Hst & _).
      exists (selected_algorithm h), saltText, it, keyText. split; [exact Hout |].
      destruct (Z.of_nat (length argv) >=? 6).
      * destruct (salt_text_of_hex _ _ _ _ Hsalt Hst) as [Hne ->].
        destruct Hsalt as (Hall & _). repeat split; assumption.
      * destruct Hsalt as (a & Ha & Hbuf & Hv & _). exists a.
        unfold salt_text_of in Hst. rewrite Hv in Hst. repeat split; assumption.
Qed.

Lemma successful_run_prints_the_salt_example :
  exists r : Run,
    successful_correct_run = Done r /\ returnValue r = 0 /\
    exists (alg saltText : text) (iterationCount : Z) (keyText : text),
      stdout r = [msg_result alg saltText iterationCount (_T "secret") keyText;
                  msg_duration 7] /\
      saltText = _T "0A 1B".
Proof.
  destruct successful_correct_run as [r |] eqn:E; [| vm_compute in E; discriminate E].
  exists r. split; [reflexivity |].
  assert (H0 : returnValue r = 0).
  { vm_compute in E. injection E as <-. reflexivity. }
  split; [exact H0 |].
  destruct (successful_run_prints_the_salt _ _ _ E H0)
    as (alg & saltText & it & keyText & Hout & Hsalt).
  exists alg, saltText, it, keyText. split; [exact Hout |].
  cbn in Hsalt. destruct Hsalt as (_ & _ & ->). vm_compute. reflexivity.
Defined.

(** X20: the result of [bytesToHex] for the key is not checked. When
    every step of the derivation succeeded and the text of the key cannot be
    allocated (the text of the salt can), the run prints [(null)] in place of
    the key, writes nothing to the error stream and returns 0. *)
Theorem key_text_allocation_is_not_checked (pf : Platform) (argv : list text) (r : Run)
    (d : DerivationInput) :
  _tmain pf argv = Done r -> derivation r = Some d ->
  derivation_succeeds pf (di_pHashType d) (di_pSalt d) (di_saltSize d)
    (di_iterationCount d) (di_password d) (di_passwordSize d) = true ->
  malloc pf AllocSaltText = true -> malloc pf AllocKeyText = false ->
  returnValue r = 0 /\ stderr r = [] /\
  exists saltText : text,
    stdout r = [msg_result (di_pHashType d) saltText (di_iterationCount d) (nth 4 argv [])
                  (_T "(null)");
                msg_duration (duration_ms pf)].
Proof.
  intros Hrun Hd Hok Hs Hk.
  destruct (_tmain_cases pf argv r Hrun)
    as [[Hlen ->] | [(Hlen & _ & _ & Hn & _) | [(Hlen & _ & _ & Hn & _) | (Hlen & H)]]];
    try (rewrite Hn in Hd; discriminate Hd); try discriminate Hd.
  destruct H as (h & s & it & pb & ps & rel & Hsalt & _ & H).
  pose proof (derive_and_print_derivation _ _ _ _ _ _ _ _ _ _ _ H) as Hd'.
  rewrite Hd in Hd'. injection Hd' as ->.
  cbn [di_pHashType di_pSalt di_saltSize di_iterationCount di_password di_passwordSize]
    in Hok |- *.
  destruct (derive_and_print_cases _ _ _ _ _ _ _ _ _ _ _ H)
    as (dk & Hdk & _ & [(Herr & _) | [(_ & Hm & _) | (_ & _ & H0 & He & Hout)]]).
  - pose proof (calculatePBKDF2_cases pf None 0 (selected_algorithm h) (salt_array s)
                  (salt_arraySize s) it pb ps 499) as Hc.
    rewrite Hdk in Hc. destruct Hc as [Hc _].
    rewrite Herr, Hok in Hc. discriminate Hc.
  - rewrite Hs in Hm. discriminate Hm.
  - destruct Hout as (saltText & keyText & Hout & _ & Hkt).
    unfold key_text_of in Hkt. rewrite Hk in Hkt. subst keyText.
    split; [exact H0 |]. split; [exact He |].
    exists saltText. exact Hout.
Qed.

Lemma key_text_allocation_is_not_checked_example :
  exists (r : Run) (saltText : text),
    run_without_key_text = Done r /\ returnValue r = 0 /\ stderr r = [] /\
    stdout r = [msg_result BCRYPT_SHA256_ALGORITHM saltText 1000 (_T "secret") (_T "(null)");
                msg_duration 7].
Proof.
  destruct run_without_key_text as [r |] eqn:E; [| vm_compute in E; discriminate E].
  destruct (derivation r) as [d |] eqn:Hd.
  2:{ vm_compute in E. injection E as <-. discriminate Hd. }
  assert (Hvalue : derivation r
                   = Some (mkDerivationInput BCRYPT_SHA256_ALGORITHM
                             (Some [Some 10; Some 27]) 2 1000
                             (Some (map Some [115; 101; 99; 114; 101; 116])) 6)).
  { vm_compute in E. injection E as <-. reflexivity. }
  rewrite Hd in Hvalue. injection Hvalue as Hvalue.
  assert (Hok : derivation_succeeds (example_platform (all_but AllocKeyText) 0 0 0)
                  (di_pHashType d) (di_pSalt d) (di_saltSize d) (di_iterationCount d)
                  (di_password d) (di_passwordSize d) = true).
  { rewrite Hvalue. reflexivity. }
  destruct (key_text_allocation_is_not_checked _ _ _ d E Hd Hok eq_refl eq_refl)
    as (H0 & He & saltText & Hout).
  exists r, saltText. split; [reflexivity |]. split; [exact H0 |]. split; [exact He |].
  rewrite Hout, Hvalue. reflexivity.
Defined.

Lemma read_pointer_abort (b : block) (size : Z) (f : Fault) :
  read_pointer (Some b) size = Abort f -> f = UninitialisedRead.
Proof.
  unfold read_pointer. generalize (take (Z.to_nat size) b). clear b.
  intros p. induction p as [| [c |] p IH]; cbn [read_block].
  - discriminate.
  - destruct (read_block p); cbn [bind]; [discriminate |]. intros [= <-]. apply IH. reflexivity.
  - intros [= <-]. reflexivity.
Qed.

Lemma print_string_abort (p : option tblock) (f : Fault) :
  print_string p = Abort f -> f = UninitialisedRead.
Proof.
  unfold print_string. destruct p as [b |]; [| discriminate].
  destruct (c_string b); congruence.
Qed.

Lemma _stprintf_s_abort (n : Z) (msg : text) (f : Fault) :
  _stprintf_s n msg = Abort f -> f = InvalidParameter.
Proof. unfold _stprintf_s. destruct (_ <? _); congruence. Qed.

Lemma _tcscpy_s_abort (n : Z) (msg : text) (f : Fault) :
  _tcscpy_s n msg = Abort f -> f = InvalidParameter.
Proof. unfold _tcscpy_s. destruct (_ <? _); congruence. Qed.

Lemma copy_all_abort (n : Z) (lines : list text) (f : Fault) :
  copy_all n lines = Abort f -> f = InvalidParameter.
Proof.
  induction lines as [| l r IH]; cbn [copy_all]; [discriminate |].
  destruct (_tcscpy_s n l) eqn:E; cbn [bind].
  - destruct (copy_all n r); cbn [bind]; [discriminate |]. intros [= <-]. apply IH. reflexivity.
  - intros [= <-]. apply _tcscpy_s_abort in E. exact E.
Qed.

Lemma hexStringToByteArray_abort (malloc_ok : bool) (hexText : text)
    (byteArraySize errorBufferSize : Z) (f : Fault) :
  hexStringToByteArray malloc_ok hexText byteArraySize errorBufferSize = Abort f ->
  f = InvalidParameter.
Proof.
  intros H.
  pose proof (hexStringToByteArray_stays_in_its_block malloc_ok hexText byteArraySize
                errorBufferSize) as S.
  rewrite H in S. exact S.
Qed.

Section NeverNull.

Context {A B : Type}.

Lemma never_null_done (a : A) : never_null (Done a).
Proof. discriminate. Qed.

Lemma never_null_bind (m : outcome A) (k : A -> outcome B) :
  never_null m -> (forall a : A, m = Done a -> never_null (k a)) -> never_null (bind m k).
Proof.
  unfold never_null. intros Hm Hk. destruct m as [a | f]; cbn [bind].
  - apply Hk. reflexivity.
  - intros E. apply Hm. injection E as ->. reflexivity.
Qed.

Lemma never_null_fault (m : outcome A) (g : Fault) :
  g <> NullPointer -> (forall f : Fault, m = Abort f -> f = g) -> never_null m.
Proof. intros Hg H E. apply Hg. symmetry. apply H. exact E. Qed.

End NeverNull.

Lemma never_null_stprintf_s (n : Z) (msg : text) : never_null (_stprintf_s n msg).
Proof. apply (never_null_fault _ InvalidParameter); [discriminate | apply _stprintf_s_abort]. Qed.

Lemma never_null_tcscpy_s (n : Z) (msg : text) : never_null (_tcscpy_s n msg).
Proof. apply (never_null_fault _ InvalidParameter); [discriminate | apply _tcscpy_s_abort]. Qed.

Lemma never_null_getIntegerArg (pArgName pArg : text)
    (minValue maxValue errorBufferSize errno : Z) :
  never_null (getIntegerArg pArgName pArg minValue maxValue errorBufferSize errno).
Proof. apply (never_null_fault _ InvalidParameter); [discriminate | apply getIntegerArg_abort]. Qed.

Lemma never_null_read_pointer (b : block) (size : Z) : never_null (read_pointer (Some b) size).
Proof. apply (never_null_fault _ UninitialisedRead); [discriminate | apply read_pointer_abort]. Qed.

Lemma never_null_bytesToHex (malloc_ok : bool) (bytes : list TOCTET) :
  never_null (bytesToHex malloc_ok bytes).
Proof.
  apply (never_null_fault _ OutOfBounds); [discriminate |].
  intros f H. apply bytesToHex_abort in H. apply H.
Qed.

Lemma never_null_print_string (p : option tblock) : never_null (print_string p).
Proof. apply (never_null_fault _ UninitialisedRead); [discriminate | apply print_string_abort]. Qed.

Lemma never_null_get_salt (pf : Platform) (doItRight : bool) (ARGV_SALT : text)
    (errorBufferSize errno : Z) :
  never_null (get_salt pf doItRight ARGV_SALT errorBufferSize errno).
Proof.
  unfold get_salt. destruct doItRight.
  - apply never_null_bind; [| intros; apply never_null_done].
    apply (never_null_fault _ InvalidParameter); [discriminate |].
    apply hexStringToByteArray_abort.
  - apply never_null_bind; [| intros; apply never_null_done].
    apply never_null_getIntegerArg.
Qed.

Lemma never_null_getPasswordUTF8Encoding (pf : Platform) (password : text)
    (passwordInUTF8 : option block) (passwordInUTF8Size errorBufferSize : Z) :
  never_null (getPasswordUTF8Encoding pf password passwordInUTF8 passwordInUTF8Size
                errorBufferSize).
Proof.
  assert (Hc : forall wide : text,
             never_null
               (if malloc pf AllocPasswordUTF8
                then Done (mkEncoding (Some (map Some (WideCharToMultiByte pf wide)))
                             (Z.of_nat (length (WideCharToMultiByte pf wide))) [])
                else bind (_stprintf_s errorBufferSize
                             (msg_utf8_allocation
                                (Z.of_nat (length (WideCharToMultiByte pf wide)))))
                       (fun msg => Done (mkEncoding None
                                           (Z.of_nat (length (WideCharToMultiByte pf wide)))
                                           msg)))).
  { intros wide. destruct (malloc pf AllocPasswordUTF8); [apply never_null_done |].
    apply never_null_bind; [apply never_null_stprintf_s | intros; apply never_null_done]. }
  unfold getPasswordUTF8Encoding. cbv zeta. destruct (UNICODE pf); [apply Hc |].
  apply never_null_bind.
  - unfold getPasswordUTF16Encoding. cbv zeta.
    destruct (malloc pf AllocPasswordUTF16); [apply never_null_done |].
    apply never_null_bind; [apply never_null_stprintf_s | intros; apply never_null_done].
  - intros [[wide |] errorBuffer] _; [apply Hc | apply never_null_done].
Qed.

Lemma never_null_derive_and_print (pf : Platform) (doItRight : bool) (hashType : Z)
    (s : Salt) (iterationCount : Z) (password : text) (passwordBytes : option block)
    (passwordBytesSize : Z) (releasePassword : option block) (errorBufferSize : Z) :
  (doItRight = true -> salt_array s <> None) ->
  never_null (derive_and_print pf doItRight hashType s iterationCount password
                passwordBytes passwordBytesSize releasePassword errorBufferSize).
Proof.
  intros Hsalt. unfold derive_and_print. cbv zeta.
  pose proof (calculatePBKDF2_cases pf None 0 (selected_algorithm hashType) (salt_array s)
                (salt_arraySize s) iterationCount passwordBytes passwordBytesSize
                errorBufferSize) as Hdk.
  apply never_null_bind.
  { intros E. rewrite E in Hdk. discriminate Hdk. }
  intros dk Edk. rewrite Edk in Hdk. destruct Hdk as [_ Hkey].
  destruct (IS_ERROR_MSG_SET (dk_errorBuffer dk)); cbn [negb]; [apply never_null_done |].
  destruct (Hkey eq_refl) as [_ Hk].
  apply never_null_bind.
  { destruct doItRight.
    - apply never_null_bind.
      + destruct (malloc pf AllocSaltText); [| apply never_null_done].
        destruct (salt_array s) as [b |]; [apply never_null_read_pointer |].
        exfalso. apply Hsalt; reflexivity.
      + intros bytes _. apply never_null_bind; [apply never_null_bytesToHex |].
        intros [p |] _; [| apply never_null_done].
        apply never_null_bind; [apply never_null_print_string | intros; apply never_null_done].
    - destruct (malloc pf AllocSaltText); apply never_null_done. }
  intros [saltText |] _.
  - apply never_null_bind.
    { destruct (malloc pf AllocKeyText); [| apply never_null_done].
      rewrite Hk. apply never_null_read_pointer. }
    intros bytes _. apply never_null_bind; [apply never_null_bytesToHex |].
    intros p _. apply never_null_bind; [apply never_null_print_string |].
    intros t _. apply never_null_bind; [apply never_null_stprintf_s |].
    intros l1 _. apply never_null_bind; [apply never_null_stprintf_s |].
    intros l2 _. apply never_null_done.
  - apply never_null_bind; [apply never_null_tcscpy_s | intros; apply never_null_done].
Qed.

(** X21: no run of [_tmain] reads through a [NULL] pointer: the salt
    array and the derived key are read only after the calls that allocate them
    reported no error. *)
Theorem no_run_reads_through_NULL (pf : Platform) (argv : list text) :
  _tmain pf argv <> Abort NullPointer.
Proof.
  change (never_null (_tmain pf argv)). unfold _tmain. cbv zeta.
  destruct (Z.of_nat (length argv) >=? 5).
  2:{ apply never_null_bind; [| intros; apply never_null_done].
      apply (never_null_fault _ InvalidParameter); [discriminate | apply copy_all_abort]. }
  apply never_null_bind; [apply never_null_getIntegerArg |]. intros a1 E1.
  destruct (IS_ERROR_MSG_SET (ia_errorBuffer a1)); [apply never_null_done |].
  apply never_null_bind; [apply never_null_get_salt |]. intros s Es.
  destruct (IS_ERROR_MSG_SET (salt_errorBuffer s)) eqn:Hes; [apply never_null_done |].
  apply never_null_bind; [apply never_null_getIntegerArg |]. intros a3 E3.
  destruct (IS_ERROR_MSG_SET (ia_errorBuffer a3)); [apply never_null_done |].
  assert (Hsalt : (Z.of_nat (length argv) >=? 6) = true -> salt_array s <> None).
  { intros Hright. rewrite Hright in Es. unfold get_salt, safeHexStringToByteArray in Es.
    case_bind Es. injection Es as <-. cbn [salt_errorBuffer] in Hes.
    destruct (hexStringToByteArray_accepts _ _ _ _ _ E Hes) as [_ ->]. discriminate. }
  destruct (Z.of_nat (length argv) >=? 6).
  - apply never_null_bind; [apply never_null_getPasswordUTF8Encoding |]. intros e Ee.
    destruct (IS_ERROR_MSG_SET (enc_errorBuffer e)); cbn [negb]; [apply never_null_done |].
    apply never_null_derive_and_print. exact Hsalt.
  - apply never_null_derive_and_print. intros H. discriminate H.
Qed.

(** X22: what [getPasswordUTF8Encoding] leaves behind. Either the error
    buffer is empty and the caller holds the UTF-8 bytes of the password and
    their number; or the UTF-8 buffer could not be allocated, and the caller
    holds [NULL] and the message names the size; or, in a build without
    [_UNICODE], the UTF-16 buffer could not be allocated, and the caller's
    pointer and size are as they were. *)
Theorem getPasswordUTF8Encoding_result (pf : Platform) (password : text)
    (passwordInUTF8 : option block) (passwordInUTF8Size errorBufferSize : Z) :
  match getPasswordUTF8Encoding pf password passwordInUTF8 passwordInUTF8Size
          errorBufferSize with
  | Done e =>
      enc_errorBuffer e = [] /\
      enc_bytes e = Some (map Some (utf8_of pf password)) /\
      enc_size e = Z.of_nat (length (utf8_of pf password))
      \/
      enc_errorBuffer e
      = msg_utf8_allocation (Z.of_nat (length (utf8_of pf password))) /\
      malloc pf AllocPasswordUTF8 = false /\
      enc_bytes e = None /\ enc_size e = Z.of_nat (length (utf8_of pf password))
      \/
      enc_errorBuffer e
      = msg_utf16_allocation
          (Z.of_nat (length (MultiByteToWideChar pf password)) * sizeof_wchar_t) /\
      UNICODE pf = false /\ malloc pf AllocPasswordUTF16 = false /\
      enc_bytes e = passwordInUTF8 /\ enc_size e = passwordInUTF8Size
  | Abort f => f = InvalidParameter
  end.
Proof.
  unfold getPasswordUTF8Encoding, getPasswordUTF16Encoding, utf8_of, _stprintf_s. cbv zeta.
  destruct (UNICODE pf).
  - destruct (malloc pf AllocPasswordUTF8).
    + left. repeat split.
    + destruct (_ <? _); cbn [bind]; [| reflexivity]. right. left. repeat split.
  - destruct (malloc pf AllocPasswordUTF16); cbn [bind].
    + destruct (malloc pf AllocPasswordUTF8).
      * left. repeat split.
      * destruct (_ <? _); cbn [bind]; [| reflexivity]. right. left. repeat split.
    + destruct (_ <? _); cbn [bind]; [| reflexivity]. right. right. repeat split.
Qed.

(** X23: a successful run frees under the label [Exit] the blocks it
    allocated and kept: with the fifth argument the UTF-8 password, the salt
    array and the derived key, without it the derived key only. *)
Theorem successful_run_releases_its_blocks (pf : Platform) (argv : list text) (r : Run) :
  _tmain pf argv = Done r -> returnValue r = 0 ->
  exists (d : DerivationInput) (key : block),
    derivation r = Some d /\
    key = snd (BCryptDeriveKeyPBKDF2 pf (di_pHashType d)
                 (take (Z.to_nat (ULONG (di_passwordSize d))) <$> di_password d)
                 (take (Z.to_nat (ULONG (di_saltSize d))) <$> di_pSalt d)
                 (ULONGLONG (di_iterationCount d))
                 (ULONG (snd (BCryptGetProperty pf (di_pHashType d))))) /\
    freed r
    = if Z.of_nat (length argv) >=? 6 then
        [map Some (utf8_of pf (nth 4 argv [])); map Some (hex_decode (nth 2 argv [])); key]
      else [key].
Proof.
  intros Hrun H0.
  destruct (_tmain_cases pf argv r Hrun)
    as [[Hlen ->] | [(Hlen & H2 & _) | [(Hlen & H3 & _) | (Hlen & H)]]].
  - discriminate H0.
  - rewrite H2 in H0. discriminate H0.
  - rewrite H3 in H0. discriminate H0.
  - destruct H as (h & s & it & pb & ps & rel & Hsalt & Hpw & H).
    pose proof (derive_and_print_derivation _ _ _ _ _ _ _ _ _ _ _ H) as Hd.
    destruct (derive_and_print_cases _ _ _ _ _ _ _ _ _ _ _ H)
      as (dk & Hdk & Hfreed & [(_ & H2 & _) | [(_ & _ & H3 & _) | (Herr & _)]]).
    + rewrite H2 in H0. discriminate H0.
    + rewrite H3 in H0. discriminate H0.
    + pose proof (calculatePBKDF2_cases pf None 0 (selected_algorithm h) (salt_array s)
                    (salt_arraySize s) it pb ps 499) as Hc.
      rewrite Hdk in Hc. destruct Hc as [_ Hc]. destruct (Hc Herr) as [_ Hkey].
      eexists. eexists. split; [exact Hd |]. split; [reflexivity |].
      cbn [di_pHashType di_password di_passwordSize di_pSalt di_saltSize di_iterationCount].
      rewrite Hfreed, Hkey.
      unfold salt_of, password_of in Hsalt, Hpw.
      destruct (Z.of_nat (length argv) >=? 6).
      * destruct Hsalt as (_ & Harr & _ & ->). destruct Hpw as (Hb & _ & ->).
        rewrite Harr, Hb. reflexivity.
      * destruct Hsalt as (a & _ & _ & _ & ->). destruct Hpw as (_ & _ & ->). reflexivity.
Qed.

Lemma successful_run_releases_its_blocks_example :
  exists r : Run,
    successful_correct_run = Done r /\ returnValue r = 0 /\
    freed r = [map Some [115; 101; 99; 114; 101; 116]; map Some [10; 27];
               map Some [1; 2; 3; 4]].
Proof.
  destruct successful_correct_run as [r |] eqn:E; [| vm_compute in E; discriminate E].
  exists r. split; [reflexivity |].
  assert (H0 : returnValue r = 0).
  { vm_compute in E. injection E as <-. reflexivity. }
  split; [exact H0 |].
  destruct (successful_run_releases_its_blocks _ _ _ E H0) as (d & key & Hd & Hkey & Hfreed).
  rewrite Hfreed, Hkey. reflexivity.
Defined.

Lemma results_and_errors_never_mix_example :
  exists r : Run,
    successful_correct_run = Done r /\ returnValue r = 0 /\
    stderr r = [] /\ length (stdout r) = 2%nat.
Proof.
  destruct successful_correct_run as [r |] eqn:E; [| vm_compute in E; discriminate E].
  exists r. split; [reflexivity |].
  assert (H0 : returnValue r = 0).
  { vm_compute in E. injection E as <-. reflexivity. }
  split; [exact H0 |].
  destruct (results_and_errors_never_mix _ _ _ E)
    as [(_ & _ & He & Ho & _) | [(H1 & _) | ([H2 | H3] & _)]].
  - split; assumption.
  - rewrite H1 in H0. discriminate H0.
  - rewrite H2 in H0. discriminate H0.
  - rewrite H3 in H0. discriminate H0.
Defined.

Lemma exit_code_3_is_an_allocation_failure_example :
  exists r : Run,
    run_without_salt_text = Done r /\ returnValue r = 3 /\
    derivation r <> None /\
    stderr r = [_T "Could not allocate salt text array" ++ [newline]].
Proof.
  destruct run_without_salt_text as [r |] eqn:E; [| vm_compute in E; discriminate E].
  exists r. split; [reflexivity |].
  assert (H3 : returnValue r = 3).
  { vm_compute in E. injection E as <-. reflexivity. }
  split; [exact H3 |].
  destruct (exit_code_3_is_an_allocation_failure _ _ _ E H3)
    as [(Hlen & _) | (Hd & _ & He)].
  - cbn in Hlen. lia.
  - split; assumption.
Defined.
